(** * hypercube-visualization.tsx: a shallow embedding

    The widget of [src/hypercube-visualization.tsx] is a tree of React
    function components.  Each component is embedded as the function from
    its props and hook state to the element tree its JSX denotes; event
    handlers are the state updates they close over; the audio effect is a
    computation in a small completion monad over a store of Web Audio
    nodes.  JavaScript numbers are IEEE 754 binary64 values, computed with
    the reference implementation of the standard library ([SpecFloat]).

    The two effects without dependencies have models of their own: the
    requestAnimationFrame loop of SimpleHypercube over the browser's list
    of frame callbacks, and the context-menu and select-start listeners of
    HypercubeVisualization over the listener list of the container. *)

From Stdlib Require Import ZArith List String Ascii Bool Lia DecimalString.
From Stdlib Require Import Floats.SpecFloat.
Import ListNotations.
Set Warnings "-register-all".
Open Scope string_scope.
Open Scope list_scope.
Open Scope Z_scope.

(** ** JavaScript numbers *)

Module Num.

Definition prec : Z := 53.
Definition emax : Z := 1024.

Definition num : Type := spec_float.

Definition add : num -> num -> num := SFadd prec emax.
Definition sub : num -> num -> num := SFsub prec emax.
Definition mul : num -> num -> num := SFmul prec emax.
Definition div : num -> num -> num := SFdiv prec emax.
Definition ltb : num -> num -> bool := SFltb.
Definition eqb : num -> num -> bool := SFeqb.

(** An integer literal, or an array index used as a number. *)
Definition of_Z (z : Z) : num := binary_normalize prec emax z 0 false.

(** The decimal literal [m]e-[k]: the double nearest to [m / 10^k].  Both
    operands are exact doubles for the literals of this file, and IEEE
    division rounds to nearest-even, which is what the lexer does. *)
Definition dec (m : Z) (k : Z) : num := div (of_Z m) (of_Z (10 ^ k)).

(** [Math.PI], 0x400921FB54442D18. *)
Definition PI : num := S754_finite false 0x1921FB54442D18 (-51).

Definition valid (x : num) : bool := valid_binary prec emax x.

End Num.

Definition num : Type := Num.num.

Declare Scope num_scope.
Delimit Scope num_scope with num.
Infix "+" := Num.add : num_scope.
Infix "-" := Num.sub : num_scope.
Infix "*" := Num.mul : num_scope.
Infix "/" := Num.div : num_scope.

(** The numeric literals of the source file. *)
Definition n0 : num := Num.of_Z 0.
Definition n1 : num := Num.of_Z 1.
Definition n2 : num := Num.of_Z 2.
Definition n4 : num := Num.of_Z 4.
Definition n0_2 : num := Num.dec 2 1.
Definition n0_3 : num := Num.dec 3 1.
Definition n0_5 : num := Num.dec 5 1.
Definition n0_7 : num := Num.dec 7 1.
Definition n1_5 : num := Num.dec 15 1.
Definition n0_1 : num := Num.dec 1 1.
Definition n0_01 : num := Num.dec 1 2.
Definition n0_15 : num := Num.dec 15 2.

(** ** Element trees

    A JSX expression denotes an element: a tag or component together with
    its props and children.  Lower-case tags are host elements; [Canvas],
    [OrbitControls], [Text], [Switch] and [Label] are imported components;
    [Scene], [SimpleHypercube] and [TextLabel] are the components of this
    file, whose elements carry their typed props until the renderer calls
    them. *)

(** Event handlers, as the state update they perform.  A handler closes
    over the values of the render that created it. *)
Inductive Handler : Type :=
| SetHovered (b : bool)          (* () => setHovered(b) *)
| SetClicked (b : bool)          (* () => setClicked(b) *)
| SetHighContrast                (* setHighContrast *)
| SetSoundEnabled.               (* setSoundEnabled *)

Inductive Value : Type :=
| VNum (x : num)
| VStr (s : string)
| VBool (b : bool)
| VArr (xs : list Value)
| VObj (fields : list (string * Value))
| VRef (name : string)
| VHandler (h : Handler).

Definition vec3 (x y z : num) : Value := VArr [VNum x; VNum y; VNum z].

Definition Props : Type := list (string * Value).

Fixpoint get_prop (name : string) (ps : Props) : option Value :=
  match ps with
  | [] => None
  | (k, v) :: rest => if String.eqb k name then Some v else get_prop name rest
  end.

Record SceneProps : Type := mkSceneProps {
  scene_highContrast : bool;
  scene_soundEnabled : bool
}.

Record SimpleHypercubeProps : Type := mkSimpleHypercubeProps {
  hovered : bool;
  clicked : bool;
  primaryColor : string;
  secondaryColor : string;
  accentColor : string;
  highContrast : bool
}.

(** Props of [TextLabel]; [None] is an omitted prop, which takes the
    default of the parameter list. *)
Record TextLabelProps : Type := mkTextLabelProps {
  text : string;
  position : Value;
  color : option string;
  outlineColor : option string;
  fontSize : option num
}.

Inductive Element : Type :=
| Host (tag : string) (props : Props) (children : list Element)
| Ext (name : string) (props : Props) (children : list Element)
| SceneEl (p : SceneProps)
| SimpleHypercubeEl (p : SimpleHypercubeProps)
| TextLabelEl (p : TextLabelProps)
| Str (s : string)
| Arr (items : list Element)
| Skip.                          (* [false], which renders nothing *)

(** [xs.map((x, index) => f)] *)
Fixpoint mapi_from {A B : Type} (i : Z) (f : A -> Z -> B) (xs : list A) : list B :=
  match xs with
  | [] => []
  | x :: rest => f x i :: mapi_from (i + 1) f rest
  end.

Definition mapi {A B : Type} (f : A -> Z -> B) (xs : list A) : list B :=
  mapi_from 0 f xs.

(** Number-to-string conversion of a non-negative integer, for template
    literals. *)
Definition string_of_index (i : Z) : string :=
  NilEmpty.string_of_uint (N.to_uint (Z.to_N i)).

(** ** The components *)

Definition GROWTH_STAGES : list string :=
  [ "Boundary Set";
    "Authenticity Embraced";
    "Self-Advocacy";
    "Resilience Built";
    "Transformation Complete" ].

Definition preventSelectionStyle : Value :=
  VObj [ ("WebkitTouchCallout", VStr "none");
         ("WebkitUserSelect", VStr "none");
         ("KhtmlUserSelect", VStr "none");
         ("MozUserSelect", VStr "none");
         ("msUserSelect", VStr "none");
         ("userSelect", VStr "none");
         ("touchAction", VStr "none");
         ("outline", VStr "none") ].

(** State of [HypercubeVisualization]: its two [useState] cells. *)
Record PrefState : Type := mkPrefState {
  pref_highContrast : bool;
  pref_soundEnabled : bool
}.

(** State of [Scene]: its two [useState] cells. *)
Record SceneState : Type := mkSceneState {
  st_hovered : bool;
  st_clicked : bool
}.

Definition HypercubeVisualization (st : PrefState) : Element :=
  let highContrast := pref_highContrast st in
  let soundEnabled := pref_soundEnabled st in
  Host "div"
    [ ("ref", VRef "canvasContainerRef");
      ("className", VStr "w-full h-screen bg-gradient-radial from-[#1A1A2E] to-[#0F0F1A] flex flex-col select-none");
      ("style", preventSelectionStyle) ]
    [ Host "div"
        [ ("className", VStr "absolute top-4 right-4 z-10 flex flex-col gap-4 bg-black/20 backdrop-blur-sm p-4 rounded-lg") ]
        [ Host "div" [ ("className", VStr "flex items-center space-x-2") ]
            [ Ext "Switch" [ ("id", VStr "high-contrast");
                             ("checked", VBool highContrast);
                             ("onCheckedChange", VHandler SetHighContrast) ] [];
              Ext "Label" [ ("htmlFor", VStr "high-contrast");
                            ("className", VStr "text-white") ]
                [ Str "High Contrast" ] ];
          Host "div" [ ("className", VStr "flex items-center space-x-2") ]
            [ Ext "Switch" [ ("id", VStr "sound-toggle");
                             ("checked", VBool soundEnabled);
                             ("onCheckedChange", VHandler SetSoundEnabled) ] [];
              Ext "Label" [ ("htmlFor", VStr "sound-toggle");
                            ("className", VStr "text-white") ]
                [ Str "Enable Sound" ] ] ];
      Ext "Canvas"
        [ ("camera", VObj [ ("position", vec3 n0 n0 (Num.of_Z 15));
                            ("fov", VNum (Num.of_Z 50)) ]);
          ("style", preventSelectionStyle) ]
        [ Host "color"
            [ ("attach", VStr "background");
              ("args", VArr [ VStr (if highContrast then "#000000" else "#0F0F1A") ]) ] [];
          Host "ambientLight" [ ("intensity", VNum n0_5) ] [];
          Host "spotLight"
            [ ("position", vec3 (Num.of_Z 10) (Num.of_Z 10) (Num.of_Z 10));
              ("angle", VNum n0_15);
              ("penumbra", VNum n1);
              ("intensity", VNum n1) ] [];
          SceneEl (mkSceneProps highContrast soundEnabled);
          Ext "OrbitControls" [ ("enablePan", VBool false);
                                ("enableZoom", VBool true) ] [] ];
      Host "div" [ ("className", VStr "absolute bottom-4 left-4 text-white/70 text-sm") ]
        [ Host "p" [] [ Str "Hover to unfold the hypercube" ];
          Host "p" [] [ Str "Click to reveal fractal structure" ] ] ].

Definition Scene (p : SceneProps) (st : SceneState) : Element :=
  let highContrast := scene_highContrast p in
  let hovered := st_hovered st in
  let clicked := st_clicked st in
  let primaryColor := if highContrast then "#FFFFFF" else "#FF4D4D" in
  let secondaryColor := if highContrast then "#FFFFFF" else "#4D4DFF" in
  let accentColor := if highContrast then "#FFFFFF" else "#FFD700" in
  Host "group"
    [ ("onPointerOver", VHandler (SetHovered true));
      ("onPointerOut", VHandler (SetHovered false));
      ("onClick", VHandler (SetClicked (negb clicked)));
      ("rotation", vec3 n0 n0 (if clicked then (Num.PI / n4)%num else n0)) ]
    [ SimpleHypercubeEl
        (mkSimpleHypercubeProps hovered clicked
           primaryColor secondaryColor accentColor highContrast) ].

Definition getLayerPosition (hovered : bool) (index : Z) : Value :=
  if negb hovered then vec3 n0 n0 n0
  else vec3 n0 ((Num.of_Z index - n2) * n2)%num n0.

(** [index % 3 === k] on an array index: the remainder of non-negative
    integers. *)
Definition palette_slot (index : Z) : Z := Z.rem index 3.

Definition SimpleHypercube (p : SimpleHypercubeProps) : Element :=
  let textColor := if highContrast p then "#FFFFFF" else "#FFFFFF" in
  let textOutlineColor := if highContrast p then "#000000" else "#000000" in
  Host "group" [ ("ref", VRef "groupRef") ]
    [ Arr (mapi (fun stage index =>
        let size := (n2 - Num.of_Z index * n0_2)%num in
        let slot_color :=
          if palette_slot index =? 0 then primaryColor p
          else if palette_slot index =? 1 then secondaryColor p
          else accentColor p in
        Host "group"
          [ ("key", VNum (Num.of_Z index));
            ("position", getLayerPosition (hovered p) index) ]
          [ Host "mesh" []
              [ Host "boxGeometry" [ ("args", vec3 size size size) ] [];
                Host "meshStandardMaterial"
                  [ ("color", VStr slot_color);
                    ("wireframe", VBool true);
                    ("emissive", VStr slot_color);
                    ("emissiveIntensity", VNum n0_3);
                    ("transparent", VBool true);
                    ("opacity", VNum n0_7) ] [] ];
            if hovered p then
              TextLabelEl
                (mkTextLabelProps stage
                   (vec3 n0 (size / n2 + n0_5)%num n0)
                   (Some textColor) (Some textOutlineColor) None)
            else Skip ]) GROWTH_STAGES);
      if clicked p then
        Host "group" [ ("scale", vec3 n0_5 n0_5 n0_5) ]
          [ Arr (map (fun level =>
              let angle := (Num.of_Z level * Num.PI / n4)%num in
              let size := (n1 - Num.of_Z level * n0_3)%num in
              Host "mesh"
                [ ("key", VStr ("fractal-" ++ string_of_index level)%string);
                  ("rotation", vec3 angle angle n0) ]
                [ Host "boxGeometry" [ ("args", vec3 size size size) ] [];
                  Host "meshStandardMaterial"
                    [ ("color", VStr (accentColor p));
                      ("wireframe", VBool true);
                      ("emissive", VStr (accentColor p));
                      ("emissiveIntensity", VNum n0_3);
                      ("transparent", VBool true);
                      ("opacity", VNum n0_7) ] [] ]) [0; 1; 2]);
            TextLabelEl
              (mkTextLabelProps "Fractal Self-Reclamation"
                 (vec3 n0 n1_5 n0)
                 (Some textColor) (Some textOutlineColor) (Some n0_15)) ]
      else Skip ].

(** ** Completions

    A statement completes normally, returns from the enclosing function, or
    throws.  Computations thread a state, which a throw leaves as it was at
    the point of the throw, so that assignments made inside a [try] block
    are seen by the code after it. *)

Inductive Exn : Type :=
| Error (name : string).

Inductive Completion (R A : Type) : Type :=
| Normal (a : A)
| Return (r : option R)          (* [return;] is [Return None] *)
| Throw (e : Exn).

Arguments Normal {R A} a.
Arguments Return {R A} r.
Arguments Throw {R A} e.

(** What a caller sees of a function call. *)
Inductive Result (R : Type) : Type :=
| Returned (r : R)
| Raised (e : Exn).

Arguments Returned {R} r.
Arguments Raised {R} e.

Definition M (St R A : Type) : Type := St -> Completion R A * St.

Section Monad.
Context {St R : Type}.

Definition ret {A : Type} (a : A) : M St R A := fun s => (Normal a, s).

Definition bind {A B : Type} (m : M St R A) (k : A -> M St R B) : M St R B :=
  fun s =>
    match m s with
    | (Normal a, s') => k a s'
    | (Return r, s') => (Return r, s')
    | (Throw e, s') => (Throw e, s')
    end.

Definition throw {A : Type} (e : Exn) : M St R A := fun s => (Throw e, s).

Definition return_ {A : Type} (r : option R) : M St R A := fun s => (Return r, s).

(** [try { body } catch (e) { handler e }] *)
Definition try_catch {A : Type} (body : M St R A) (handler : Exn -> M St R A) : M St R A :=
  fun s =>
    match body s with
    | (Throw e, s') => handler e s'
    | other => other
    end.

Definition get : M St R St := fun s => (Normal s, s).

Definition modify (f : St -> St) : M St R unit := fun s => (Normal tt, f s).

(** Calling a function whose body is [body]: falling off the end yields
    [undefined]. *)
Definition call {A : Type} (body : M St R A) (s : St) : Result (option R) * St :=
  match body s with
  | (Normal _, s') => (Returned None, s')
  | (Return r, s') => (Returned r, s')
  | (Throw e, s') => (Raised e, s')
  end.

End Monad.

Declare Scope js_scope.
Delimit Scope js_scope with js.
Notation "x <- m ;; k" := (bind m (fun x => k))
  (at level 61, m at next level, right associativity) : js_scope.
Notation "m ;; k" := (bind m (fun _ => k))
  (at level 61, right associativity) : js_scope.

(** ** The Web Audio store *)

Record AudioContextObj : Type := mkAudioContext {
  ac_closed : bool
}.

Record OscillatorObj : Type := mkOscillator {
  osc_context : nat;
  osc_type : string;
  osc_frequency : num;
  osc_output : option nat;         (* the gain node it is connected to *)
  osc_started : bool;
  osc_stopped : bool
}.

Record GainObj : Type := mkGain {
  gain_context : nat;
  gain_value : num;
  gain_to_destination : bool
}.

Record World : Type := mkWorld {
  contexts : list AudioContextObj;
  oscillators : list OscillatorObj;
  gains : list GainObj;
  console : list (string * Exn)
}.

Definition empty_world : World := mkWorld [] [] [] [].

Fixpoint update_nth {A : Type} (i : nat) (f : A -> A) (l : list A) : list A :=
  match l, i with
  | [], _ => []
  | x :: rest, O => f x :: rest
  | x :: rest, S j => x :: update_nth j f rest
  end.

(** The calls the audio effect makes into the host environment. *)
Inductive ApiCall : Type :=
| NewAudioContext
| CreateOscillator
| CreateGain
| SetType
| SetFrequency
| SetGain
| ConnectGain
| ConnectDestination
| Start
| Stop
| Close.

(** The host environment: whether an audio context constructor exists,
    which calls fail (as a function of the call and the store at the time
    of the call), and for which props the imported [Text] component fails
    to render. *)
Record Env : Type := mkEnv {
  has_AudioContext : bool;
  throws : ApiCall -> World -> bool;
  Text_throws : Props -> bool
}.

Definition nominal : Env := mkEnv true (fun _ _ => false) (fun _ => false).

Definition api_error (c : ApiCall) : Exn :=
  Error match c with
        | NewAudioContext => "NotSupportedError"
        | CreateOscillator => "createOscillator"
        | CreateGain => "createGain"
        | SetType => "type"
        | SetFrequency => "frequency"
        | SetGain => "gain"
        | ConnectGain => "connect"
        | ConnectDestination => "connect"
        | Start => "start"
        | Stop => "stop"
        | Close => "close"
        end.

Section Api.
Context {R : Type}.
Variable env : Env.

(** Every call first consults the environment. *)
Definition guard (c : ApiCall) : M World R unit :=
  fun w => if throws env c w then (Throw (api_error c), w) else (Normal tt, w).

Definition set_contexts (f : list AudioContextObj -> list AudioContextObj) (w : World) : World :=
  mkWorld (f (contexts w)) (oscillators w) (gains w) (console w).

Definition set_oscillators (f : list OscillatorObj -> list OscillatorObj) (w : World) : World :=
  mkWorld (contexts w) (f (oscillators w)) (gains w) (console w).

Definition set_gains (f : list GainObj -> list GainObj) (w : World) : World :=
  mkWorld (contexts w) (oscillators w) (f (gains w)) (console w).

(** [new AudioContext()] *)
Definition new_AudioContext : M World R nat :=
  (guard NewAudioContext ;;
   w <- get ;;
   modify (set_contexts (fun l => l ++ [mkAudioContext false])) ;;
   ret (List.length (contexts w)))%js.

(** [audioContext.createOscillator()]: a sine oscillator at 440 Hz. *)
Definition createOscillator (ac : nat) : M World R nat :=
  (guard CreateOscillator ;;
   w <- get ;;
   modify (set_oscillators
             (fun l => l ++ [mkOscillator ac "sine" (Num.of_Z 440) None false false])) ;;
   ret (List.length (oscillators w)))%js.

(** [audioContext.createGain()]: unit gain. *)
Definition createGain (ac : nat) : M World R nat :=
  (guard CreateGain ;;
   w <- get ;;
   modify (set_gains (fun l => l ++ [mkGain ac n1 false])) ;;
   ret (List.length (gains w)))%js.

Definition update_osc (o : nat) (f : OscillatorObj -> OscillatorObj) : M World R unit :=
  modify (set_oscillators (update_nth o f)).

(** [oscillator.type = t] *)
Definition set_osc_type (o : nat) (t : string) : M World R unit :=
  (guard SetType ;;
   update_osc o (fun x =>
     mkOscillator (osc_context x) t (osc_frequency x)
                  (osc_output x) (osc_started x) (osc_stopped x)))%js.

(** [oscillator.frequency.value = v] *)
Definition set_frequency (o : nat) (v : num) : M World R unit :=
  (guard SetFrequency ;;
   update_osc o (fun x =>
     mkOscillator (osc_context x) (osc_type x) v
                  (osc_output x) (osc_started x) (osc_stopped x)))%js.

(** [gainNode.gain.value = v] *)
Definition set_gain (g : nat) (v : num) : M World R unit :=
  (guard SetGain ;;
   modify (set_gains (update_nth g (fun x =>
     mkGain (gain_context x) v (gain_to_destination x)))))%js.

(** [oscillator.connect(gainNode)] *)
Definition connect_gain (o g : nat) : M World R unit :=
  (guard ConnectGain ;;
   update_osc o (fun x =>
     mkOscillator (osc_context x) (osc_type x) (osc_frequency x)
                  (Some g) (osc_started x) (osc_stopped x)))%js.

(** [gainNode.connect(audioContext.destination)] *)
Definition connect_destination (g : nat) : M World R unit :=
  (guard ConnectDestination ;;
   modify (set_gains (update_nth g (fun x =>
     mkGain (gain_context x) (gain_value x) true))))%js.

(** [oscillator.start()]; a second start is an InvalidStateError. *)
Definition start (o : nat) : M World R unit :=
  (guard Start ;;
   w <- get ;;
   match nth_error (oscillators w) o with
   | Some x =>
       if osc_started x then throw (Error "InvalidStateError")
       else update_osc o (fun x =>
              mkOscillator (osc_context x) (osc_type x) (osc_frequency x)
                           (osc_output x) true (osc_stopped x))
   | None => throw (Error "TypeError")
   end)%js.

(** [oscillator.stop()]; stopping an oscillator that was never started is
    an InvalidStateError. *)
Definition stop (o : nat) : M World R unit :=
  (guard Stop ;;
   w <- get ;;
   match nth_error (oscillators w) o with
   | Some x =>
       if osc_started x
       then update_osc o (fun x =>
              mkOscillator (osc_context x) (osc_type x) (osc_frequency x)
                           (osc_output x) (osc_started x) true)
       else throw (Error "InvalidStateError")
   | None => throw (Error "TypeError")
   end)%js.

(** [audioContext.close()] *)
Definition close (ac : nat) : M World R unit :=
  (guard Close ;;
   modify (set_contexts (update_nth ac (fun _ => mkAudioContext true))))%js.

(** [console.error(msg, e)] *)
Definition console_error (msg : string) (e : Exn) : M World R unit :=
  modify (fun w => mkWorld (contexts w) (oscillators w) (gains w)
                           (console w ++ [(msg, e)])).

End Api.

(** ** TextLabel

    The JSX expression in the [try] block builds the element that names the
    imported [Text] component and its props; it does not call [Text].  The
    renderer calls [Text] later, when it mounts the element that
    [TextLabel] returned. *)

Definition from_default {A : Type} (d : A) (o : option A) : A :=
  match o with
  | Some a => a
  | None => d
  end.

Definition text_element (p : TextLabelProps) : Element :=
  let color := from_default "#FFFFFF" (color p) in
  let outlineColor := from_default "#000000" (outlineColor p) in
  let fontSize := from_default n0_2 (fontSize p) in
  Ext "Text"
    [ ("position", position p);
      ("fontSize", VNum fontSize);
      ("color", VStr color);
      ("anchorX", VStr "center");
      ("anchorY", VStr "middle");
      ("outlineWidth", VNum n0_01);
      ("outlineColor", VStr outlineColor);
      ("renderOrder", VNum n1);
      ("depthTest", VBool false) ]
    [ Str (text p) ].

Definition fallback_marker (p : TextLabelProps) : Element :=
  let color := from_default "#FFFFFF" (color p) in
  Host "mesh" [ ("position", position p) ]
    [ Host "sphereGeometry"
        [ ("args", VArr [ VNum n0_1; VNum (Num.of_Z 8); VNum (Num.of_Z 8) ]) ] [];
      Host "meshBasicMaterial" [ ("color", VStr color) ] [] ].

Definition TextLabel (p : TextLabelProps) : M World Element unit :=
  try_catch
    (return_ (Some (text_element p)))
    (fun error =>
       (console_error "Error rendering text:" error ;;
        return_ (Some (fallback_marker p)))%js).

(** ** The audio effect of Scene *)

(** The variables [audioContext], [oscillator] and [gainNode] of one run of
    the effect.  The cleanup closure captures them. *)
Record Locals : Type := mkLocals {
  audioContext : option nat;
  oscillator : option nat;
  gainNode : option nat
}.

Definition undefined_locals : Locals := mkLocals None None None.

Definition Cleanup : Type := Locals.

Section Effect.
Variable env : Env.

Definition liftW {R A : Type} (m : M World R A) : M (World * Locals) R A :=
  fun s => let (c, w') := m (fst s) in (c, (w', snd s)).

Definition assign {R : Type} (f : Locals -> Locals) : M (World * Locals) R unit :=
  modify (fun s => (fst s, f (snd s))).

Definition audio_effect (soundEnabled hovered : bool) : M (World * Locals) Cleanup unit :=
  if negb soundEnabled then return_ None
  else
    (try_catch
       (if negb (has_AudioContext env) then return_ None
        else
          ac <- liftW (new_AudioContext env) ;;
          assign (fun l => mkLocals (Some ac) (oscillator l) (gainNode l)) ;;
          o <- liftW (createOscillator env ac) ;;
          assign (fun l => mkLocals (audioContext l) (Some o) (gainNode l)) ;;
          g <- liftW (createGain env ac) ;;
          assign (fun l => mkLocals (audioContext l) (oscillator l) (Some g)) ;;
          liftW (set_osc_type env o "sine") ;;
          liftW (set_frequency env o (if hovered then Num.of_Z 40 else Num.of_Z 10)) ;;
          liftW (set_gain env g (if hovered then n0_2 else n0)) ;;
          liftW (connect_gain env o g) ;;
          liftW (connect_destination env g) ;;
          liftW (start env o))
       (fun e => liftW (console_error "Audio error:" e)) ;;
     s <- get ;;
     return_ (Some (snd s)))%js.

Definition audio_cleanup (c : Cleanup) : M World unit unit :=
  try_catch
    (match oscillator c with
     | Some o => stop env o
     | None => ret tt
     end ;;
     match audioContext c with
     | Some ac => close env ac
     | None => ret tt
     end)%js
    (fun e => console_error "Audio cleanup error:" e).

(** [useEffect(effect, [soundEnabled, hovered])]: the dependencies of the
    last run and the cleanup it returned. *)
Record EffectHook : Type := mkEffectHook {
  last_deps : option (bool * bool);
  pending : option Cleanup
}.

Definition unmounted : EffectHook := mkEffectHook None None.

Definition same_deps (old : option (bool * bool)) (new : bool * bool) : bool :=
  match old with
  | Some (s, h) => Bool.eqb s (fst new) && Bool.eqb h (snd new)
  | None => false
  end.

Definition run_pending (hook : EffectHook) (w : World) : Result (option unit) * World :=
  match pending hook with
  | Some c => call (audio_cleanup c) w
  | None => (Returned None, w)
  end.

(** The commit after a render: when a dependency changed (or on mount),
    run the cleanup of the previous run, then the effect. *)
Definition commit_effect (deps : bool * bool) (hook : EffectHook) (w : World)
  : Result EffectHook * World :=
  if same_deps (last_deps hook) deps then (Returned hook, w)
  else
    match run_pending hook w with
    | (Raised e, w1) => (Raised e, w1)
    | (Returned _, w1) =>
        match call (audio_effect (fst deps) (snd deps)) (w1, undefined_locals) with
        | (Raised e, s2) => (Raised e, fst s2)
        | (Returned c, s2) => (Returned (mkEffectHook (Some deps) c), fst s2)
        end
    end.

(** Unmounting runs the pending cleanup. *)
Definition unmount_effect (hook : EffectHook) (w : World) : Result EffectHook * World :=
  match run_pending hook w with
  | (Raised e, w1) => (Raised e, w1)
  | (Returned _, w1) => (Returned unmounted, w1)
  end.

End Effect.

(** ** Mounting

    The renderer walks an element tree, calls the components it meets and
    walks what they return.  An exception thrown by a component during this
    walk is thrown by the render as a whole: the tree has no error
    boundary. *)

Section Mount.
Variable text_throws : Props -> bool.

Definition invoke (body : M World Element unit) : M World unit Element :=
  fun w =>
    match call body w with
    | (Returned (Some el), w') => (Normal el, w')
    | (Returned None, w') => (Normal Skip, w')
    | (Raised e, w') => (Throw e, w')
    end.

(** Rendering an imported component.  Only [Text] is given a way to
    fail. *)
Definition render_ext (name : string) (ps : Props) : M World unit unit :=
  if String.eqb name "Text" && text_throws ps
  then throw (Error "Text")
  else ret tt.

Fixpoint walk (h : Element -> M World unit Element) (el : Element)
  : M World unit Element :=
  let walk_list :=
    fix walk_list (l : list Element) : M World unit (list Element) :=
      match l with
      | [] => ret []
      | x :: rest =>
          (x' <- walk h x ;;
           rest' <- walk_list rest ;;
           ret (x' :: rest'))%js
      end in
  match el with
  | Host tag ps cs => (cs' <- walk_list cs ;; ret (Host tag ps cs'))%js
  | Ext name ps cs =>
      (render_ext name ps ;; cs' <- walk_list cs ;; ret (Ext name ps cs'))%js
  | Arr items => (items' <- walk_list items ;; ret (Arr items'))%js
  | Str _ | Skip => ret el
  | SceneEl _ | SimpleHypercubeEl _ | TextLabelEl _ => h el
  end.

Definition no_component (el : Element) : M World unit Element :=
  throw (Error "unknown component").

Definition mount_TextLabel (el : Element) : M World unit Element :=
  match el with
  | TextLabelEl p => (out <- invoke (TextLabel p) ;; walk no_component out)%js
  | _ => no_component el
  end.

Definition mount_SimpleHypercube (el : Element) : M World unit Element :=
  match el with
  | SimpleHypercubeEl p => walk mount_TextLabel (SimpleHypercube p)
  | _ => mount_TextLabel el
  end.

Definition mount_Scene (st : SceneState) (el : Element) : M World unit Element :=
  match el with
  | SceneEl p => walk mount_SimpleHypercube (Scene p st)
  | _ => mount_SimpleHypercube el
  end.

Definition mount_app (prefs : PrefState) (st : SceneState) : M World unit Element :=
  walk (mount_Scene st) (HypercubeVisualization prefs).

End Mount.

(** ** Reading element trees *)

Fixpoint descendants (el : Element) : list Element :=
  el :: match el with
        | Host _ _ cs | Ext _ _ cs | Arr cs => flat_map descendants cs
        | _ => []
        end.

Definition is_host (tag : string) (el : Element) : bool :=
  match el with
  | Host t _ _ => String.eqb t tag
  | _ => false
  end.

Definition is_ext (name : string) (el : Element) : bool :=
  match el with
  | Ext n _ _ => String.eqb n name
  | _ => false
  end.

Definition props_of (el : Element) : Props :=
  match el with
  | Host _ ps _ | Ext _ ps _ => ps
  | _ => []
  end.

Definition prop (name : string) (el : Element) : option Value :=
  get_prop name (props_of el).

Definition has_prop (name : string) (el : Element) : bool :=
  match prop name el with
  | Some _ => true
  | None => false
  end.

Definition hosts (tag : string) (el : Element) : list Element :=
  filter (is_host tag) (descendants el).

(** The five layer groups: the items of the array that is the first child
    of the group SimpleHypercube returns. *)
Definition layers (tree : Element) : list Element :=
  match tree with
  | Host _ _ (Arr items :: _) => items
  | _ => []
  end.

Definition layer (i : Z) (tree : Element) : option Element :=
  if i <? 0 then None else nth_error (layers tree) (Z.to_nat i).

Definition first_host (tag : string) (o : option Element) : option Element :=
  match o with
  | Some el => find (is_host tag) (descendants el)
  | None => None
  end.

Definition prop_of (name : string) (o : option Element) : option Value :=
  match o with
  | Some el => prop name el
  | None => None
  end.

(** The groups that carry a [scale] prop: the fractal sub-group. *)
Definition fractal_groups (tree : Element) : list Element :=
  filter (fun el => is_host "group" el && has_prop "scale" el) (descendants tree).

Definition count_cubes (el : Element) : nat :=
  List.length (hosts "boxGeometry" el).

(** The props of the TextLabel elements of a tree. *)
Definition labels (tree : Element) : list TextLabelProps :=
  flat_map (fun el => match el with TextLabelEl p => [p] | _ => [] end)
           (descendants tree).

(** The props of the SimpleHypercube element Scene returns. *)
Definition hypercube_props (tree : Element) : option SimpleHypercubeProps :=
  match tree with
  | Host _ _ [SimpleHypercubeEl p] => Some p
  | _ => None
  end.

(** The props Scene is rendered with. *)
Definition scene_props (tree : Element) : SceneProps :=
  match find (fun el => match el with SceneEl _ => true | _ => false end)
             (descendants tree) with
  | Some (SceneEl p) => p
  | _ => mkSceneProps false false
  end.

(** The colour attached as the canvas background. *)
Definition canvas_background (tree : Element) : option Value :=
  match find (fun el => is_host "color" el) (descendants tree) with
  | Some el =>
      match prop "attach" el, prop "args" el with
      | Some (VStr "background"), Some (VArr [c]) => Some c
      | _, _ => None
      end
  | None => None
  end.

(** ** Events and the application as a state machine *)

Inductive Event : Type :=
| PointerOver
| PointerOut
| Click
| CheckedChange (id : string) (checked : bool).

Definition prop_handler (name : string) (el : Element) : option Handler :=
  match prop name el with
  | Some (VHandler h) => Some h
  | _ => None
  end.

Definition switch_handler (id : string) (tree : Element) : option Handler :=
  match find (fun el => is_ext "Switch" el &&
                        match prop "id" el with
                        | Some (VStr s) => String.eqb s id
                        | _ => false
                        end)
             (descendants tree) with
  | Some el => prop_handler "onCheckedChange" el
  | None => None
  end.

Definition UI : Type := (PrefState * SceneState)%type.

(** The handler an event reaches, taken from the elements of the current
    render. *)
Definition handler_of (ev : Event) (ui : UI) : option Handler :=
  let top := HypercubeVisualization (fst ui) in
  let scene := Scene (scene_props top) (snd ui) in
  match ev with
  | PointerOver => prop_handler "onPointerOver" scene
  | PointerOut => prop_handler "onPointerOut" scene
  | Click => prop_handler "onClick" scene
  | CheckedChange id _ => switch_handler id top
  end.

Definition event_arg (ev : Event) : bool :=
  match ev with
  | CheckedChange _ checked => checked
  | _ => false
  end.

Definition apply_handler (h : Handler) (arg : bool) (ui : UI) : UI :=
  let (prefs, st) := ui in
  match h with
  | SetHovered b => (prefs, mkSceneState b (st_clicked st))
  | SetClicked b => (prefs, mkSceneState (st_hovered st) b)
  | SetHighContrast => (mkPrefState arg (pref_soundEnabled prefs), st)
  | SetSoundEnabled => (mkPrefState (pref_highContrast prefs) arg, st)
  end.

Definition dispatch (ev : Event) (ui : UI) : UI :=
  match handler_of ev ui with
  | Some h => apply_handler h (event_arg ev) ui
  | None => ui
  end.

(** The dependencies of the audio effect in a given state. *)
Definition effect_deps (ui : UI) : bool * bool :=
  (scene_soundEnabled (scene_props (HypercubeVisualization (fst ui))),
   st_hovered (snd ui)).

(** Render, without the commit: the state after the event and the mounted
    tree, or the exception the render throws. *)
Definition ui_step (text_throws : Props -> bool) (ev : Event) (ui : UI)
  : Result (UI * Element) :=
  let ui' := dispatch ev ui in
  match mount_app text_throws (fst ui') (snd ui') empty_world with
  | (Normal tree, _) => Returned (ui', tree)
  | (Return _, _) => Returned (ui', Skip)
  | (Throw e, _) => Raised e
  end.

Record App : Type := mkApp {
  ui : UI;
  hook : EffectHook;
  world : World
}.

(** Render and commit in the state [ui']. *)
Definition render_commit (env : Env) (ui' : UI) (hook : EffectHook) (w : World)
  : Result App :=
  match mount_app (Text_throws env) (fst ui') (snd ui') w with
  | (Throw e, _) => Raised e
  | (_, w1) =>
      match commit_effect env (effect_deps ui') hook w1 with
      | (Returned hook', w2) => Returned (mkApp ui' hook' w2)
      | (Raised e, _) => Raised e
      end
  end.

Definition initial_ui : UI := (mkPrefState false false, mkSceneState false false).

Definition mount (env : Env) : Result App :=
  render_commit env initial_ui unmounted empty_world.

Definition step (env : Env) (ev : Event) (app : App) : Result App :=
  render_commit env (dispatch ev (ui app)) (hook app) (world app).

Fixpoint run (env : Env) (evs : list Event) (app : App) : Result App :=
  match evs with
  | [] => Returned app
  | ev :: rest =>
      match step env ev app with
      | Returned app' => run env rest app'
      | Raised e => Raised e
      end
  end.

(** Successive commits of the effect for a sequence of dependency values. *)
Fixpoint commits (env : Env) (ds : list (bool * bool)) (hook : EffectHook) (w : World)
  : Result EffectHook * World :=
  match ds with
  | [] => (Returned hook, w)
  | d :: rest =>
      match commit_effect env d hook w with
      | (Returned hook', w') => commits env rest hook' w'
      | (Raised e, w') => (Raised e, w')
      end
  end.

(** The tones that sound: started, not stopped oscillators of open contexts
    that reach the destination through a gain node; each with its frequency
    and gain. *)
Definition tone_of (w : World) (o : OscillatorObj) : list (num * num) :=
  if osc_started o && negb (osc_stopped o) then
    match nth_error (contexts w) (osc_context o), osc_output o with
    | Some ac, Some g =>
        match nth_error (gains w) g with
        | Some gn =>
            if negb (ac_closed ac) && gain_to_destination gn
            then [(osc_frequency o, gain_value gn)]
            else []
        | None => []
        end
    | _, _ => []
    end
  else [].

Definition live_tones (w : World) : list (num * num) :=
  flat_map (tone_of w) (oscillators w).

(** ** Vocabulary of the properties *)

Definition palette (tree : Element) : option (string * string * string) :=
  match hypercube_props tree with
  | Some p => Some (primaryColor p, secondaryColor p, accentColor p)
  | None => None
  end.

(** The colour and the emissive colour of every standard material of a
    tree. *)
Definition material_colors (tree : Element) : list (option Value * option Value) :=
  map (fun m => (prop "color" m, prop "emissive" m))
      (hosts "meshStandardMaterial" tree).

Definition with_highContrast (b : bool) (p : SimpleHypercubeProps) : SimpleHypercubeProps :=
  mkSimpleHypercubeProps (hovered p) (clicked p)
    (primaryColor p) (secondaryColor p) (accentColor p) b.

Definition texts (tree : Element) : list Element :=
  filter (is_ext "Text") (descendants tree).

Definition audio_ok (env : Env) : Prop :=
  has_AudioContext env = true /\ forall c w, throws env c w = false.

Definition handle (w0 : World) : Cleanup :=
  mkLocals (Some (List.length (contexts w0)))
           (Some (List.length (oscillators w0)))
           (Some (List.length (gains w0))).

Definition tone_frequency (hovered : bool) : num :=
  if hovered then Num.of_Z 40 else Num.of_Z 10.

Definition tone_gain (hovered : bool) : num :=
  if hovered then n0_2 else n0.

Definition added_tone (hovered stopped : bool) (w0 : World) : World :=
  mkWorld
    (contexts w0 ++ [mkAudioContext stopped])
    (oscillators w0 ++
       [mkOscillator (List.length (contexts w0)) "sine" (tone_frequency hovered)
                     (Some (List.length (gains w0))) true stopped])
    (gains w0 ++ [mkGain (List.length (contexts w0)) (tone_gain hovered) true])
    (console w0).

(** Torn down: every oscillator stopped, every context closed. *)
Definition quiet (w : World) : Prop :=
  Forall (fun o => osc_stopped o = true) (oscillators w)
  /\ Forall (fun c => ac_closed c = true) (contexts w).

(** What holds of the hook and the store between commits: either a cleanup
    is pending and the store is a quiet store plus the one tone the cleanup
    holds, made for the dependencies of the last run; or nothing is pending
    and the store is quiet. *)
Definition hook_inv (hook : EffectHook) (w : World) : Prop :=
  match pending hook with
  | Some c =>
      exists hovered w0,
        last_deps hook = Some (true, hovered)
        /\ quiet w0 /\ w = added_tone hovered false w0 /\ c = handle w0
  | None =>
      quiet w
      /\ (last_deps hook = None \/ exists hovered, last_deps hook = Some (false, hovered))
  end.

(** The store [w1] holds the nodes of [w], all torn down, and nothing
    else. *)
Definition torn_down (w w1 : World) : Prop :=
  quiet w1
  /\ List.length (oscillators w1) = List.length (oscillators w)
  /\ List.length (contexts w1) = List.length (contexts w)
  /\ gains w1 = gains w
  /\ console w1 = console w.

(** The nodes one run of the effect adds to the store [w]. *)
Definition fresh_nodes (soundEnabled hovered : bool) (w : World)
  : list AudioContextObj * list OscillatorObj * list GainObj :=
  if soundEnabled then
    ([mkAudioContext false],
     [mkOscillator (List.length (contexts w)) "sine"
                   (if hovered then Num.of_Z 40 else Num.of_Z 10)
                   (Some (List.length (gains w))) true false],
     [mkGain (List.length (contexts w)) (if hovered then n0_2 else n0) true])
  else ([], [], []).

(** Mounting neither reads nor writes the store. *)
Definition stateless {A : Type} (m : M World unit A) : Prop :=
  forall w, m w = (fst (m empty_world), w).

(** An environment in which every audio call fails. *)
Definition hostile : Env := mkEnv true (fun _ _ => true) (fun _ => false).

(** An environment without an audio context constructor. *)
Definition unsupported : Env := mkEnv false (fun _ _ => false) (fun _ => false).

(** The tones that sound after a session of events. *)
Definition tones_after (env : Env) (evs : list Event) : option (list (num * num)) :=
  match mount env with
  | Returned app =>
      match run env evs app with
      | Returned app' => Some (live_tones (world app'))
      | Raised _ => None
      end
  | Raised _ => None
  end.

(** ** The animation loop of SimpleHypercube

    The effect with no dependencies calls [animate] once on mount; each
    call turns the group, if the ref is attached, and asks for the next
    frame.  The browser keeps the requested callbacks until the next frame
    and hands out request ids from 1 upwards. *)

Definition n0_001 : num := Num.dec 1 3.
Definition n0_002 : num := Num.dec 2 3.

Inductive FrameCallback : Type :=
| Animate                        (* [animate] of this component *)
| Foreign.                       (* a callback of other code on the page *)

Record AnimState : Type := mkAnimState {
  groupRef : option (num * num);   (* rotation.x, rotation.y of groupRef.current *)
  animationId : option nat;        (* [undefined] or the last request id *)
  last_request : nat;              (* the last id requestAnimationFrame returned *)
  frame_callbacks : list (nat * FrameCallback)
}.

Definition requestAnimationFrame (cb : FrameCallback) (s : AnimState) : nat * AnimState :=
  let id := S (last_request s) in
  (id, mkAnimState (groupRef s) (animationId s) id (frame_callbacks s ++ [(id, cb)])).

Definition cancelAnimationFrame (id : nat) (s : AnimState) : AnimState :=
  mkAnimState (groupRef s) (animationId s) (last_request s)
    (filter (fun c => negb (Nat.eqb (fst c) id)) (frame_callbacks s)).

(** One turn of the group: [rotation.x += 0.001; rotation.y += 0.002]. *)
Definition spin (r : num * num) : num * num :=
  ((fst r + n0_001)%num, (snd r + n0_002)%num).

Definition animate (s : AnimState) : AnimState :=
  let s1 :=
    match groupRef s with
    | Some r => mkAnimState (Some (spin r)) (animationId s) (last_request s)
                            (frame_callbacks s)
    | None => s
    end in
  let (id, s2) := requestAnimationFrame Animate s1 in
  mkAnimState (groupRef s2) (Some id) (last_request s2) (frame_callbacks s2).

(** The effect body: [let animationId; ...; animate()]. *)
Definition animation_effect (s : AnimState) : AnimState :=
  animate (mkAnimState (groupRef s) None (last_request s) (frame_callbacks s)).

(** The cleanup: [if (animationId) cancelAnimationFrame(animationId)]. *)
Definition animation_cleanup (s : AnimState) : AnimState :=
  match animationId s with
  | Some (S id) => cancelAnimationFrame (S id) s
  | _ => s
  end.

(** A frame: the browser takes the callbacks requested so far and runs
    them in order; what they request is kept for the frame after. *)
Definition run_frame (s : AnimState) : AnimState :=
  fold_left
    (fun s c => match snd c with
                | Animate => animate s
                | Foreign => s
                end)
    (frame_callbacks s)
    (mkAnimState (groupRef s) (animationId s) (last_request s) []).

Definition is_animate (c : nat * FrameCallback) : bool :=
  match snd c with
  | Animate => true
  | Foreign => false
  end.

(** ** The listeners of HypercubeVisualization

    The effect with no dependencies registers one fresh closure,
    [preventDefault], for two event types on the container element, and
    its cleanup removes it again.  A listener is identified by the closure
    registered; closures are numbered in the order of their creation. *)

Inductive Listener : Type :=
| PreventDefault (closure : nat)            (* [(e) => { e.preventDefault(); return false }] *)
| OtherListener (closure : nat) (prevents : bool).

Definition listener_closure (l : Listener) : nat :=
  match l with
  | PreventDefault c => c
  | OtherListener c _ => c
  end.

(** Whether running the listener cancels the event. *)
Definition prevents_default (l : Listener) : bool :=
  match l with
  | PreventDefault _ => true
  | OtherListener _ b => b
  end.

Record Dom : Type := mkDom {
  canvasContainerRef : bool;       (* whether the ref holds the container *)
  listeners : list (string * Listener);
  closures : nat                   (* closures created so far *)
}.

Definition same_listener (type : string) (l : Listener) (entry : string * Listener) : bool :=
  String.eqb (fst entry) type
  && Nat.eqb (listener_closure (snd entry)) (listener_closure l).

(** [addEventListener]: a listener already registered for the type is not
    registered twice. *)
Definition addEventListener (type : string) (l : Listener)
    (ls : list (string * Listener)) : list (string * Listener) :=
  if existsb (same_listener type l) ls then ls else ls ++ [(type, l)].

Definition removeEventListener (type : string) (l : Listener)
    (ls : list (string * Listener)) : list (string * Listener) :=
  filter (fun entry => negb (same_listener type l entry)) ls.

(** The effect: the new store and the closure its cleanup holds, if it
    returned one. *)
Definition listeners_effect (d : Dom) : Dom * option Listener :=
  if negb (canvasContainerRef d) then (d, None)
  else
    let preventDefault := PreventDefault (closures d) in
    (mkDom (canvasContainerRef d)
           (addEventListener "selectstart" preventDefault
              (addEventListener "contextmenu" preventDefault (listeners d)))
           (S (closures d)),
     Some preventDefault).

Definition listeners_cleanup (c : option Listener) (d : Dom) : Dom :=
  match c with
  | Some preventDefault =>
      mkDom (canvasContainerRef d)
            (removeEventListener "selectstart" preventDefault
               (removeEventListener "contextmenu" preventDefault (listeners d)))
            (closures d)
  | None => d
  end.

(** Whether an event of the given type, dispatched on the container, ends
    up cancelled. *)
Definition default_prevented (type : string) (d : Dom) : bool :=
  existsb (fun entry => String.eqb (fst entry) type && prevents_default (snd entry))
          (listeners d).

(** ** Further vocabulary *)

(** The [checked] prop of the switch with the given id. *)
Definition switch_checked (id : string) (tree : Element) : option Value :=
  match find (fun el => is_ext "Switch" el &&
                        match prop "id" el with
                        | Some (VStr s) => String.eqb s id
                        | _ => false
                        end)
             (descendants tree) with
  | Some el => prop "checked" el
  | None => None
  end.

(** The second child of a layer group: its label, or [Skip]. *)
Definition label_of (o : option Element) : option Element :=
  match o with
  | Some (Host _ _ (_ :: l :: _)) => Some l
  | _ => None
  end.

(** The meshes and the caption of the fractal group. *)
Definition fractal_meshes (tree : Element) : list Element :=
  match fractal_groups tree with
  | [Host _ _ (Arr ms :: _)] => ms
  | _ => []
  end.

Definition fractal_caption (tree : Element) : option Element :=
  match fractal_groups tree with
  | [Host _ _ [_; l]] => Some l
  | _ => None
  end.

(** The state the handlers reach after a sequence of events. *)
Definition ui_after (evs : list Event) (u : UI) : UI :=
  fold_left (fun u ev => dispatch ev u) evs u.

(** The tone the effect makes for its dependencies. *)
Definition expected_tones (d : bool * bool) : list (num * num) :=
  if fst d
  then [(if snd d then Num.of_Z 40 else Num.of_Z 10, if snd d then n0_2 else n0)]
  else [].

(** What holds of the widget between events. *)
Definition app_inv (app : App) : Prop :=
  hook_inv (hook app) (world app)
  /\ last_deps (hook app) = Some (effect_deps (ui app)).

(** An environment in which connecting the oscillator fails. *)
Definition no_connect : Env :=
  mkEnv true
        (fun c _ => match c with ConnectGain => true | _ => false end)
        (fun _ => false).

(** An environment in which creating the oscillator fails. *)
Definition no_oscillator : Env :=
  mkEnv true
        (fun c _ => match c with CreateOscillator => true | _ => false end)
        (fun _ => false).

(** The two stores hold the same number of nodes of each kind. *)
Definition same_nodes (w w' : World) : Prop :=
  List.length (contexts w') = List.length (contexts w)
  /\ List.length (oscillators w') = List.length (oscillators w)
  /\ List.length (gains w') = List.length (gains w).

(** The loop runs: the callback requested last is [animate], the cleanup
    would cancel exactly that request, and whatever else waits for the
    next frame belongs to other code and was requested earlier. *)
Definition anim_running (s : AnimState) : Prop :=
  exists fs,
    frame_callbacks s = fs ++ [(last_request s, Animate)]
    /\ Forall (fun c => snd c = Foreign /\ (fst c < last_request s)%nat) fs
    /\ animationId s = Some (last_request s)
    /\ (1 <= last_request s)%nat.

(** The callbacks waiting belong to other code and carry ids handed out
    before. *)
Definition foreign_only (s : AnimState) : Prop :=
  Forall (fun c => snd c = Foreign /\ (fst c <= last_request s)%nat)
         (frame_callbacks s).

(** Every registered listener is a closure created before. *)
Definition known_closures (d : Dom) : Prop :=
  Forall (fun entry => (listener_closure (snd entry) < closures d)%nat) (listeners d).

(** * Properties *)

(** ** Numbers *)

Example n0_2_bits : n0_2 = S754_finite false 0x1999999999999A (-55).
Proof. vm_compute. reflexivity. Qed.

Example n0_5_bits : n0_5 = S754_finite false 0x10000000000000 (-53).
Proof. vm_compute. reflexivity. Qed.

Example PI_valid : Num.valid Num.PI = true.
Proof. vm_compute. reflexivity. Qed.

(** [Math.PI / 4] is the quarter of a half turn: 45 degrees, about
    0.7853981633974483 rad. *)
Lemma quarter_pi_bounds :
  Num.ltb (Num.dec 785398163397448 15) (Num.PI / n4)%num = true /\
  Num.ltb (Num.PI / n4)%num (Num.dec 785398163397449 15) = true.
Proof. split; vm_compute; reflexivity. Qed.

Lemma index_cases (i : Z) :
  0 <= i <= 4 -> i = 0 \/ i = 1 \/ i = 2 \/ i = 3 \/ i = 4.
Proof. lia. Qed.

Ltac each_index i H :=
  let E := fresh "E" in
  destruct (index_cases i H) as [E | [E | [E | [E | E]]]]; subst i.

Ltac by_evaluation := vm_compute; reflexivity.

(** ** Interaction state *)

(** C1.  A click flips [clicked] and leaves [hovered] and the preferences
    alone, so that two clicks restore the state; the group Scene mounts is
    rotated by [Math.PI / 4] about z exactly when [clicked] holds and by
    zero otherwise; the mounted tree has one fractal group, holding three
    cubes, exactly when [clicked] holds, and none otherwise. *)
Theorem click_toggles_activation (prefs : PrefState) (p : SceneProps)
    (st : SceneState) (w : World) :
  dispatch Click (prefs, st)
    = (prefs, mkSceneState (st_hovered st) (negb (st_clicked st)))
  /\ dispatch Click (dispatch Click (prefs, st)) = (prefs, st)
  /\ Num.eqb (Num.PI / n4)%num n0 = false
  /\ exists tree,
       mount_Scene (Text_throws nominal) st (SceneEl p) w = (Normal tree, w)
       /\ prop "rotation" tree
          = Some (vec3 n0 n0 (if st_clicked st then (Num.PI / n4)%num else n0))
       /\ map count_cubes (fractal_groups tree)
          = if st_clicked st then [3%nat] else [].
Proof.
  destruct prefs as [hc se], p as [phc pse], st as [h c].
  split; [| split; [| split]].
  - destruct hc, se, h, c; by_evaluation.
  - destruct hc, se, h, c; by_evaluation.
  - by_evaluation.
  - destruct phc, h, c; eexists; (split; [by_evaluation | split; by_evaluation]).
Qed.

(** ** Layers *)

(** C2.  For a layer index between 0 and 4 the layer group is positioned by
    [getLayerPosition]: at the origin when not hovered, and at height
    [(i - 2) * 2] with x and z zero when hovered. *)
Theorem layer_position (p : SimpleHypercubeProps) (i : Z) :
  0 <= i <= 4 ->
  prop_of "position" (layer i (SimpleHypercube p))
    = Some (getLayerPosition (hovered p) i)
  /\ getLayerPosition false i = vec3 n0 n0 n0
  /\ getLayerPosition true i = vec3 n0 (Num.of_Z ((i - 2) * 2)) n0.
Proof.
  intros H. destruct p as [h c pc sc ac hc].
  each_index i H; (split; [destruct h; by_evaluation | split; by_evaluation]).
Qed.

Lemma layer_position_witness :
  prop_of "position"
    (layer 0 (SimpleHypercube (mkSimpleHypercubeProps true false "r" "g" "b" false)))
    = Some (vec3 n0 (Num.of_Z (-4)) n0)
  /\ getLayerPosition true 2 = vec3 n0 n0 n0
  /\ getLayerPosition true 4 = vec3 n0 (Num.of_Z 4) n0.
Proof.
  split; [| split].
  - refine (eq_trans (proj1 (layer_position
              (mkSimpleHypercubeProps true false "r" "g" "b" false) 0 _)) _);
      [lia | vm_compute; reflexivity].
  - vm_compute; reflexivity.
  - vm_compute; reflexivity.
Defined.

(** C3.  For a layer index between 0 and 4 the box of the layer has the
    edge [2 - i * 0.2] on its three axes; this number is the double nearest
    to the decimal value [(20 - 2 i) / 10], and from index 1 on it is
    strictly below the edge of the layer before. *)
Theorem layer_size (p : SimpleHypercubeProps) (i : Z) :
  0 <= i <= 4 ->
  let size := (n2 - Num.of_Z i * n0_2)%num in
  prop_of "args" (first_host "boxGeometry" (layer i (SimpleHypercube p)))
    = Some (vec3 size size size)
  /\ size = Num.dec (20 - 2 * i) 1
  /\ (1 <= i -> Num.ltb size (n2 - Num.of_Z (i - 1) * n0_2)%num = true).
Proof.
  intros H. destruct p as [h c pc sc ac hc].
  each_index i H; cbv zeta;
    (split; [destruct h; by_evaluation | split; [by_evaluation |]]);
    intros Hi; try lia; by_evaluation.
Qed.

Lemma layer_size_witness :
  prop_of "args"
    (first_host "boxGeometry"
       (layer 3 (SimpleHypercube (mkSimpleHypercubeProps false false "r" "g" "b" false))))
    = Some (vec3 (Num.dec 14 1) (Num.dec 14 1) (Num.dec 14 1))
  /\ Num.ltb (Num.dec 14 1) (Num.dec 16 1) = true.
Proof.
  pose proof (layer_size (mkSimpleHypercubeProps false false "r" "g" "b" false) 3
                ltac:(lia)) as H.
  cbv zeta in H. destruct H as [Hargs [Hdec Hlt]].
  split.
  - rewrite Hargs. vm_compute. reflexivity.
  - vm_compute. reflexivity.
Defined.

(** C4.  For a layer index between 0 and 4 the colour and the emissive
    colour of the layer's material are the palette entry [i mod 3] of
    primary, secondary, accent; layers 0 and 3 take the same entry, and so
    do layers 1 and 4. *)
Theorem layer_color (p : SimpleHypercubeProps) (i : Z) :
  0 <= i <= 4 ->
  let palette := [primaryColor p; secondaryColor p; accentColor p] in
  let material j := first_host "meshStandardMaterial" (layer j (SimpleHypercube p)) in
  prop_of "color" (material i)
    = Some (VStr (nth (Z.to_nat (i mod 3)) palette ""))
  /\ prop_of "emissive" (material i)
    = Some (VStr (nth (Z.to_nat (i mod 3)) palette ""))
  /\ prop_of "color" (material 0) = prop_of "color" (material 3)
  /\ prop_of "color" (material 1) = prop_of "color" (material 4).
Proof.
  intros H. destruct p as [h c pc sc ac hc]. cbv zeta.
  each_index i H; destruct h;
    (split; [| split; [| split]]); by_evaluation.
Qed.

Lemma layer_color_witness :
  prop_of "color"
    (first_host "meshStandardMaterial"
       (layer 4 (SimpleHypercube
                   (mkSimpleHypercubeProps false false "#FF4D4D" "#4D4DFF" "#FFD700" false))))
    = Some (VStr "#4D4DFF").
Proof.
  pose proof (layer_color
                (mkSimpleHypercubeProps false false "#FF4D4D" "#4D4DFF" "#FFD700" false)
                4 ltac:(lia)) as H.
  cbv zeta in H. destruct H as [Hc _].
  rewrite Hc. vm_compute. reflexivity.
Defined.

(** ** Colours *)

(** C8.  With [highContrast] the three colours Scene derives are all
    "#FFFFFF"; without it they are "#FF4D4D", "#4D4DFF" and "#FFD700". *)
Theorem palette_of_contrast (soundEnabled : bool) (st : SceneState) :
  palette (Scene (mkSceneProps true soundEnabled) st)
    = Some ("#FFFFFF", "#FFFFFF", "#FFFFFF")
  /\ palette (Scene (mkSceneProps false soundEnabled) st)
    = Some ("#FF4D4D", "#4D4DFF", "#FFD700").
Proof. split; reflexivity. Qed.

(** C9, as stated, fails: with [highContrast] the canvas background is
    black, not the white of the palette. *)
Lemma high_contrast_background_not_white :
  canvas_background (HypercubeVisualization (mkPrefState true false))
    = Some (VStr "#000000")
  /\ canvas_background (HypercubeVisualization (mkPrefState true false))
    <> Some (VStr "#FFFFFF").
Proof.
  split.
  - by_evaluation.
  - vm_compute. discriminate.
Qed.

(** C9, amended.  With [highContrast] the canvas background is "#000000"
    (it is "#0F0F1A" without), and every material of the mounted tree, the
    five layers and the fractal cubes alike, has the colour and the
    emissive colour "#FFFFFF". *)
Theorem high_contrast_black_and_white (soundEnabled : bool) (st : SceneState)
    (w : World) :
  canvas_background (HypercubeVisualization (mkPrefState false soundEnabled))
    = Some (VStr "#0F0F1A")
  /\ exists tree,
       mount_app (Text_throws nominal) (mkPrefState true soundEnabled) st w
         = (Normal tree, w)
       /\ canvas_background tree = Some (VStr "#000000")
       /\ material_colors tree
          = repeat (Some (VStr "#FFFFFF"), Some (VStr "#FFFFFF"))
                   (if st_clicked st then 8 else 5).
Proof.
  destruct st as [h c].
  split; [destruct soundEnabled; by_evaluation |].
  destruct soundEnabled, h, c; eexists;
    (split; [by_evaluation | split; by_evaluation]).
Qed.

(** ** Labels *)

(** C10.  Whatever [highContrast] is, every TextLabel of SimpleHypercube is
    given the colour "#FFFFFF" and the outline colour "#000000", the labels
    are the same for both values of [highContrast], and the [Text] elements
    mounted from them carry these two colours. *)
Theorem label_colors_fixed (p : SimpleHypercubeProps) (b : bool) (w : World) :
  Forall (fun l => color l = Some "#FFFFFF" /\ outlineColor l = Some "#000000")
         (labels (SimpleHypercube p))
  /\ labels (SimpleHypercube (with_highContrast b p)) = labels (SimpleHypercube p)
  /\ List.length (labels (SimpleHypercube p))
     = ((if hovered p then 5 else 0) + (if clicked p then 1 else 0))%nat
  /\ exists tree,
       mount_SimpleHypercube (Text_throws nominal) (SimpleHypercubeEl p) w
         = (Normal tree, w)
       /\ Forall (fun t => prop "color" t = Some (VStr "#FFFFFF")
                           /\ prop "outlineColor" t = Some (VStr "#000000"))
                 (texts tree)
       /\ List.length (texts tree) = List.length (labels (SimpleHypercube p)).
Proof.
  destruct p as [h c pc sc ac hc].
  split; [| split; [| split]].
  - destruct h, c, hc; vm_compute; repeat constructor.
  - destruct h, c, hc, b; by_evaluation.
  - destruct h, c; by_evaluation.
  - destruct h, c, hc; eexists;
      (split; [by_evaluation | split; [vm_compute; repeat constructor | by_evaluation]]).
Qed.

(** ** The caption path *)

(** C7 does not hold of the code.  The [try] block of TextLabel only builds
    the [Text] element, which cannot fail, so TextLabel returns that
    element for every input and its [catch] block is never entered; when
    [Text] then fails to render, the failure is thrown by the mount of the
    label, and by the render of the whole widget as soon as a label is
    shown.  No sphere marker is produced. *)
Theorem text_failure_escapes_TextLabel :
  (forall p w, call (TextLabel p) w = (Returned (Some (text_element p)), w))
  /\ (forall p, text_element p <> fallback_marker p)
  /\ (forall p w,
        mount_TextLabel (fun _ => true) (TextLabelEl p) w = (Throw (Error "Text"), w))
  /\ ui_step (fun _ => true) PointerOver initial_ui = Raised (Error "Text")
  /\ ui_step (fun _ => true) Click initial_ui = Raised (Error "Text").
Proof.
  split; [| split; [| split; [| split]]].
  - intros p w. reflexivity.
  - intros p. unfold text_element, fallback_marker. discriminate.
  - intros p w. reflexivity.
  - by_evaluation.
  - by_evaluation.
Qed.

(** ** The audio effect where the audio calls succeed *)

Lemma nth_error_snoc {A : Type} (l : list A) (x : A) :
  nth_error (l ++ [x]) (List.length l) = Some x.
Proof. induction l as [| y l IH]; [reflexivity | exact IH]. Qed.

Lemma update_nth_snoc {A : Type} (f : A -> A) (l : list A) (x : A) :
  update_nth (List.length l) f (l ++ [x]) = l ++ [f x].
Proof.
  induction l as [| y l IH]; [reflexivity |].
  cbn. rewrite IH. reflexivity.
Qed.

Section MonadLaws.
Context {St R : Type}.

Lemma bind_normal {A B : Type} (m : M St R A) (k : A -> M St R B) s a s' :
  m s = (Normal a, s') -> bind m k s = k a s'.
Proof. intros H. unfold bind. rewrite H. reflexivity. Qed.

Lemma try_catch_normal {A : Type} (m : M St R A) h s a s' :
  m s = (Normal a, s') -> try_catch m h s = (Normal a, s').
Proof. intros H. unfold try_catch. rewrite H. reflexivity. Qed.

End MonadLaws.

Lemma liftW_normal {R A : Type} (m : M World R A) w l a w' :
  m w = (Normal a, w') -> liftW m (w, l) = (Normal a, (w', l)).
Proof. intros H. unfold liftW. cbn [fst snd]. rewrite H. reflexivity. Qed.

Section Working.
Variable env : Env.
Hypothesis Hok : audio_ok env.
Context {R : Type}.

Lemma guard_ok c w : guard (R := R) env c w = (Normal tt, w).
Proof. unfold guard. rewrite (proj2 Hok). reflexivity. Qed.

Ltac guarded := erewrite bind_normal by apply guard_ok; try reflexivity.

Lemma new_AudioContext_ok w :
  new_AudioContext (R := R) env w
  = (Normal (List.length (contexts w)),
     set_contexts (fun l => l ++ [mkAudioContext false]) w).
Proof. unfold new_AudioContext. guarded. Qed.

Lemma createOscillator_ok ac w :
  createOscillator (R := R) env ac w
  = (Normal (List.length (oscillators w)),
     set_oscillators
       (fun l => l ++ [mkOscillator ac "sine" (Num.of_Z 440) None false false]) w).
Proof. unfold createOscillator. guarded. Qed.

Lemma createGain_ok ac w :
  createGain (R := R) env ac w
  = (Normal (List.length (gains w)),
     set_gains (fun l => l ++ [mkGain ac n1 false]) w).
Proof. unfold createGain. guarded. Qed.

Lemma set_osc_type_ok o t w :
  set_osc_type (R := R) env o t w
  = (Normal tt,
     set_oscillators (update_nth o (fun x =>
       mkOscillator (osc_context x) t (osc_frequency x)
                    (osc_output x) (osc_started x) (osc_stopped x))) w).
Proof. unfold set_osc_type. guarded. Qed.

Lemma set_frequency_ok o v w :
  set_frequency (R := R) env o v w
  = (Normal tt,
     set_oscillators (update_nth o (fun x =>
       mkOscillator (osc_context x) (osc_type x) v
                    (osc_output x) (osc_started x) (osc_stopped x))) w).
Proof. unfold set_frequency. guarded. Qed.

Lemma set_gain_ok g v w :
  set_gain (R := R) env g v w
  = (Normal tt,
     set_gains (update_nth g (fun x =>
       mkGain (gain_context x) v (gain_to_destination x))) w).
Proof. unfold set_gain. guarded. Qed.

Lemma connect_gain_ok o g w :
  connect_gain (R := R) env o g w
  = (Normal tt,
     set_oscillators (update_nth o (fun x =>
       mkOscillator (osc_context x) (osc_type x) (osc_frequency x)
                    (Some g) (osc_started x) (osc_stopped x))) w).
Proof. unfold connect_gain. guarded. Qed.

Lemma connect_destination_ok g w :
  connect_destination (R := R) env g w
  = (Normal tt,
     set_gains (update_nth g (fun x =>
       mkGain (gain_context x) (gain_value x) true)) w).
Proof. unfold connect_destination. guarded. Qed.

Lemma start_ok o w x :
  nth_error (oscillators w) o = Some x ->
  osc_started x = false ->
  start (R := R) env o w
  = (Normal tt,
     set_oscillators (update_nth o (fun x =>
       mkOscillator (osc_context x) (osc_type x) (osc_frequency x)
                    (osc_output x) true (osc_stopped x))) w).
Proof.
  intros Hx Hs. unfold start. guarded.
  unfold bind, get. rewrite Hx, Hs. reflexivity.
Qed.

Lemma stop_ok o w x :
  nth_error (oscillators w) o = Some x ->
  osc_started x = true ->
  stop (R := R) env o w
  = (Normal tt,
     set_oscillators (update_nth o (fun x =>
       mkOscillator (osc_context x) (osc_type x) (osc_frequency x)
                    (osc_output x) (osc_started x) true)) w).
Proof.
  intros Hx Hs. unfold stop. guarded.
  unfold bind, get. rewrite Hx, Hs. reflexivity.
Qed.

Lemma close_ok ac w :
  close (R := R) env ac w
  = (Normal tt, set_contexts (update_nth ac (fun _ => mkAudioContext true)) w).
Proof. unfold close. guarded. Qed.

End Working.

Lemma assign_ok {R : Type} (f : Locals -> Locals) (w : World) (l : Locals) :
  assign (R := R) f (w, l) = (Normal tt, (w, f l)).
Proof. reflexivity. Qed.

Ltac world_norm :=
  unfold set_contexts, set_oscillators, set_gains;
  cbn [contexts oscillators gains console
       audioContext oscillator gainNode fst snd];
  rewrite ?update_nth_snoc.

Ltac effect_step Hok lem :=
  erewrite bind_normal by (apply liftW_normal; apply lem; exact Hok);
  world_norm;
  try (erewrite bind_normal by apply assign_ok; world_norm).

Lemma audio_effect_ok (env : Env) (hovered : bool) (w0 : World) :
  audio_ok env ->
  call (audio_effect env true hovered) (w0, undefined_locals)
  = (Returned (Some (handle w0)), (added_tone hovered false w0, handle w0)).
Proof.
  intros Hok. destruct w0 as [cs os gs log].
  unfold audio_effect, call. cbn [negb].
  rewrite (proj1 Hok). cbn [negb].
  erewrite bind_normal.
  2:{ eapply try_catch_normal.
      effect_step Hok @new_AudioContext_ok.
      effect_step Hok @createOscillator_ok.
      effect_step Hok @createGain_ok.
      effect_step Hok @set_osc_type_ok.
      effect_step Hok @set_frequency_ok.
      effect_step Hok @set_gain_ok.
      effect_step Hok @connect_gain_ok.
      effect_step Hok @connect_destination_ok.
      apply liftW_normal.
      erewrite start_ok; [world_norm; reflexivity | exact Hok | | ].
      - world_norm. apply nth_error_snoc.
      - reflexivity. }
  reflexivity.
Qed.

Lemma audio_cleanup_ok (env : Env) (hovered : bool) (w0 : World) :
  audio_ok env ->
  call (audio_cleanup env (handle w0)) (added_tone hovered false w0)
  = (Returned None, added_tone hovered true w0).
Proof.
  intros Hok. destruct w0 as [cs os gs log].
  unfold audio_cleanup, call, handle, added_tone.
  cbn [contexts oscillators gains console audioContext oscillator gainNode].
  erewrite try_catch_normal; [reflexivity |].
  erewrite bind_normal.
  2:{ eapply stop_ok; [exact Hok | world_norm; apply nth_error_snoc | reflexivity]. }
  rewrite close_ok by exact Hok.
  world_norm. reflexivity.
Qed.

Lemma quiet_added_tone (hovered : bool) (w0 : World) :
  quiet w0 -> quiet (added_tone hovered true w0).
Proof.
  intros [Ho Hc]. split; cbn [added_tone oscillators contexts];
    apply Forall_app; split; auto; repeat constructor.
Qed.

Lemma tone_of_stopped (w : World) (os : list OscillatorObj) :
  Forall (fun o => osc_stopped o = true) os -> flat_map (tone_of w) os = [].
Proof.
  induction 1 as [| o os Ho _ IH]; [reflexivity |].
  cbn [flat_map]. rewrite IH. unfold tone_of. rewrite Ho.
  rewrite andb_false_r. reflexivity.
Qed.

Lemma live_tones_quiet (w : World) : quiet w -> live_tones w = [].
Proof. intros [Ho _]. apply tone_of_stopped, Ho. Qed.

Lemma live_tones_added (hovered : bool) (w0 : World) :
  quiet w0 ->
  live_tones (added_tone hovered false w0) = [(tone_frequency hovered, tone_gain hovered)].
Proof.
  intros [Ho _]. unfold live_tones. cbn [added_tone oscillators].
  rewrite flat_map_app, (tone_of_stopped _ _ Ho).
  cbn [flat_map app tone_of osc_started osc_stopped osc_context osc_output
       osc_frequency andb negb].
  unfold added_tone at 1 2. cbn [contexts gains].
  rewrite !nth_error_snoc. reflexivity.
Qed.

Lemma same_deps_true (old : option (bool * bool)) (d : bool * bool) :
  same_deps old d = true -> old = Some d.
Proof.
  destruct old as [[s h] |], d as [s' h']; cbn; [| discriminate].
  destruct s, h, s', h'; cbn; intros H; try discriminate; reflexivity.
Qed.

Lemma run_pending_ok (env : Env) (hook : EffectHook) (w : World) :
  audio_ok env -> hook_inv hook w ->
  exists w1, run_pending env hook w = (Returned None, w1) /\ torn_down w w1.
Proof.
  intros Hok Hinv. unfold hook_inv in Hinv. unfold run_pending.
  destruct (pending hook) as [c |].
  - destruct Hinv as (hov & w0 & _ & Hq & -> & ->).
    exists (added_tone hov true w0). split.
    + apply audio_cleanup_ok, Hok.
    + split; [apply quiet_added_tone, Hq |].
      cbn [added_tone oscillators contexts gains console].
      rewrite !length_app. repeat split; reflexivity.
  - destruct Hinv as [Hq _]. exists w. split; [reflexivity |].
    split; [exact Hq |]. repeat split; reflexivity.
Qed.

Lemma commit_effect_ok (env : Env) (d : bool * bool) (hook : EffectHook) (w : World) :
  audio_ok env -> hook_inv hook w ->
  exists hook' w',
    commit_effect env d hook w = (Returned hook', w')
    /\ hook_inv hook' w'
    /\ if same_deps (last_deps hook) d then hook' = hook /\ w' = w /\ last_deps hook = Some d
       else exists w1,
              torn_down w w1
              /\ w' = (if fst d then added_tone (snd d) false w1 else w1).
Proof.
  intros Hok Hinv. unfold commit_effect.
  destruct (same_deps (last_deps hook) d) eqn:Hsame.
  - exists hook, w. split; [reflexivity |]. split; [exact Hinv |].
    repeat split. apply same_deps_true, Hsame.
  - destruct (run_pending_ok env hook w Hok Hinv) as (w1 & -> & Htorn).
    destruct d as [[|] hov]; cbn [fst snd].
    + rewrite (audio_effect_ok env hov w1 Hok). cbn [fst].
      eexists _, _. split; [reflexivity |]. split.
      * unfold hook_inv. cbn [pending last_deps].
        exists hov, w1. repeat split; apply Htorn.
      * exists w1. split; [exact Htorn | reflexivity].
    + eexists _, _. split; [reflexivity |]. split.
      * unfold hook_inv. cbn [pending last_deps fst].
        split; [apply Htorn | right; exists hov; reflexivity].
      * exists w1. split; [exact Htorn | reflexivity].
Qed.

Lemma commits_ok (env : Env) (ds : list (bool * bool)) :
  audio_ok env ->
  forall hook w, hook_inv hook w ->
  exists hook' w', commits env ds hook w = (Returned hook', w') /\ hook_inv hook' w'.
Proof.
  intros Hok. induction ds as [| d ds IH]; intros hook w Hinv.
  - exists hook, w. split; [reflexivity | exact Hinv].
  - cbn [commits].
    destruct (commit_effect_ok env d hook w Hok Hinv) as (hook1 & w1 & -> & Hinv1 & _).
    apply IH, Hinv1.
Qed.

Lemma hook_inv_unmounted : hook_inv unmounted empty_world.
Proof.
  unfold hook_inv. cbn. split; [split; constructor | left; reflexivity].
Qed.

(** C5.  Where the audio calls succeed, after any sequence of commits of
    the effect a further commit for the dependencies [(soundEnabled,
    hovered)] completes, and: if neither dependency changed, the store is
    as it was; otherwise every oscillator that existed is stopped and every
    context that existed is closed, and the store gains exactly one open
    context, one started oscillator (40 Hz if hovered, 10 Hz if not) and
    one gain node (0.2 if hovered, 0 if not) wired to the destination when
    [soundEnabled] holds, and gains nothing when it does not.  In either
    case the tones that sound afterwards are that one tone, or none when
    [soundEnabled] is false. *)
Theorem audio_follows_hover (env : Env) (ds : list (bool * bool))
    (soundEnabled hovered : bool) :
  audio_ok env ->
  exists hook w hook' w',
    commits env ds unmounted empty_world = (Returned hook, w)
    /\ commit_effect env (soundEnabled, hovered) hook w = (Returned hook', w')
    /\ live_tones w'
       = (if soundEnabled
          then [(if hovered then Num.of_Z 40 else Num.of_Z 10,
                 if hovered then n0_2 else n0)]
          else [])
    /\ if same_deps (last_deps hook) (soundEnabled, hovered) then w' = w
       else exists cs os,
              List.length cs = List.length (contexts w)
              /\ List.length os = List.length (oscillators w)
              /\ Forall (fun c => ac_closed c = true) cs
              /\ Forall (fun o => osc_stopped o = true) os
              /\ contexts w' = cs ++ fst (fst (fresh_nodes soundEnabled hovered w))
              /\ oscillators w' = os ++ snd (fst (fresh_nodes soundEnabled hovered w))
              /\ gains w' = gains w ++ snd (fresh_nodes soundEnabled hovered w).
Proof.
  intros Hok.
  destruct (commits_ok env ds Hok _ _ hook_inv_unmounted) as (hook & w & Hrun & Hinv).
  destruct (commit_effect_ok env (soundEnabled, hovered) hook w Hok Hinv)
    as (hook' & w' & Hcommit & Hinv' & Hcase).
  exists hook, w, hook', w'.
  split; [exact Hrun |]. split; [exact Hcommit |].
  destruct (same_deps (last_deps hook) (soundEnabled, hovered)).
  - destruct Hcase as (-> & -> & Hdeps). split; [| reflexivity].
    unfold hook_inv in Hinv. destruct (pending hook) as [c |].
    + destruct Hinv as (hov & w0 & Hd & Hq & -> & _).
      rewrite Hd in Hdeps. injection Hdeps as <- <-.
      apply live_tones_added, Hq.
    + destruct Hinv as [Hq [Hd | [hov Hd]]]; rewrite Hd in Hdeps;
        [discriminate |].
      injection Hdeps as <- <-. apply live_tones_quiet, Hq.
  - destruct Hcase as (w1 & (Hq & Hlo & Hlc & Hg & Hlog) & ->).
    cbn [fst snd]. split.
    + destruct soundEnabled;
        [apply live_tones_added, Hq | apply live_tones_quiet, Hq].
    + exists (contexts w1), (oscillators w1).
      split; [exact Hlc |]. split; [exact Hlo |].
      split; [apply Hq |]. split; [apply Hq |].
      unfold fresh_nodes.
      destruct soundEnabled; cbn [fst snd added_tone contexts oscillators gains];
        rewrite ?app_nil_r, ?Hlc, ?Hg; repeat split; reflexivity.
Qed.

Lemma audio_ok_nominal : audio_ok nominal.
Proof. split; [reflexivity | intros c w; reflexivity]. Qed.

Lemma audio_follows_hover_witness :
  audio_ok nominal
  /\ exists hook w hook' w',
       commits nominal [(true, false)] unmounted empty_world = (Returned hook, w)
       /\ commit_effect nominal (true, true) hook w = (Returned hook', w')
       /\ live_tones w' = [(Num.of_Z 40, n0_2)].
Proof.
  split; [exact audio_ok_nominal |].
  destruct (audio_follows_hover nominal [(true, false)] true true
              (conj eq_refl (fun _ _ => eq_refl)))
    as (hook & w & hook' & w' & Hrun & Hcommit & Hlive & _).
  exists hook, w, hook', w'. repeat split; assumption.
Defined.

(** ** The audio effect in any environment *)

Section Containment.
Context {St R A : Type}.

(** A [try] whose handler completes normally does not throw. *)
Lemma try_catch_no_throw (m : M St R A) (h : Exn -> M St R A) (s : St) :
  (forall e s', exists a s'', h e s' = (Normal a, s'')) ->
  forall e s', try_catch m h s <> (Throw e, s').
Proof.
  intros Hh e s'. unfold try_catch.
  destruct (m s) as [[a | r | e0] s0]; try discriminate.
  destruct (Hh e0 s0) as (a & s'' & ->). discriminate.
Qed.

Lemma call_returns (m : M St R A) (s : St) :
  (forall e s', m s <> (Throw e, s')) ->
  exists r s', call m s = (Returned r, s').
Proof.
  intros Hm. unfold call.
  destruct (m s) as [[a | r | e] s'] eqn:E; eauto.
  exfalso. exact (Hm e s' eq_refl).
Qed.
End Containment.

Lemma audio_cleanup_returns (env : Env) (c : Cleanup) (w : World) :
  exists r w', call (audio_cleanup env c) w = (Returned r, w').
Proof.
  apply call_returns. unfold audio_cleanup.
  apply try_catch_no_throw. intros e s'. eexists _, _. reflexivity.
Qed.

Lemma audio_effect_returns (env : Env) (soundEnabled hovered : bool)
    (s : World * Locals) :
  exists r s', call (audio_effect env soundEnabled hovered) s = (Returned r, s').
Proof.
  apply call_returns. intros e s'. unfold audio_effect.
  destruct soundEnabled; cbn [negb]; [| discriminate].
  unfold bind at 1.
  match goal with
  | |- context [try_catch ?m ?h s] =>
      pose proof (try_catch_no_throw m h s) as Hno;
      destruct (try_catch m h s) as [[a | r | e0] s0]
  end; try discriminate.
  exfalso. refine (Hno _ e0 s0 eq_refl).
  intros e1 [w1 l1]. eexists _, _. reflexivity.
Qed.

Lemma run_pending_returns (env : Env) (hook : EffectHook) (w : World) :
  exists r w', run_pending env hook w = (Returned r, w').
Proof.
  unfold run_pending. destruct (pending hook) as [c |].
  - apply audio_cleanup_returns.
  - eexists _, _. reflexivity.
Qed.

Lemma commit_effect_returns (env : Env) (d : bool * bool) (hook : EffectHook)
    (w : World) :
  exists hook' w', commit_effect env d hook w = (Returned hook', w').
Proof.
  unfold commit_effect. destruct (same_deps (last_deps hook) d).
  - eexists _, _. reflexivity.
  - destruct (run_pending_returns env hook w) as (r & w1 & ->).
    destruct (audio_effect_returns env (fst d) (snd d) (w1, undefined_locals))
      as (c & s2 & ->).
    eexists _, _. reflexivity.
Qed.

Lemma stateless_ret {A : Type} (a : A) : stateless (ret a).
Proof. intros w. reflexivity. Qed.

Lemma stateless_bind {A B : Type} (m : M World unit A) (k : A -> M World unit B) :
  stateless m -> (forall a, stateless (k a)) -> stateless (bind m k).
Proof.
  intros Hm Hk w. unfold bind.
  rewrite (Hm w). destruct (m empty_world) as [[a | r | e] w0]; cbn [fst].
  - rewrite (Hk a w), (Hk a w0). reflexivity.
  - reflexivity.
  - reflexivity.
Qed.

Section MountStateless.
Variable text_throws : Props -> bool.

Lemma stateless_render_ext name ps : stateless (render_ext text_throws name ps).
Proof.
  intros w. unfold render_ext.
  destruct (String.eqb name "Text" && text_throws ps); reflexivity.
Qed.

Lemma stateless_walk (h : Element -> M World unit Element) :
  (forall el, stateless (h el)) ->
  forall el, stateless (walk text_throws h el).
Proof.
  intros Hh. fix IH 1. intros el.
  destruct el as [tag ps cs | name ps cs | p | p | p | s | items |];
    cbn [walk]; try apply Hh; try apply stateless_ret.
  - apply stateless_bind; [| intros; apply stateless_ret].
    revert cs. fix IHl 1. intros [| x rest].
    + apply stateless_ret.
    + apply stateless_bind; [apply IH |]. intros x'.
      apply stateless_bind; [apply IHl |]. intros; apply stateless_ret.
  - apply stateless_bind; [apply stateless_render_ext |]. intros _.
    apply stateless_bind; [| intros; apply stateless_ret].
    revert cs. fix IHl 1. intros [| x rest].
    + apply stateless_ret.
    + apply stateless_bind; [apply IH |]. intros x'.
      apply stateless_bind; [apply IHl |]. intros; apply stateless_ret.
  - apply stateless_bind; [| intros; apply stateless_ret].
    revert items. fix IHl 1. intros [| x rest].
    + apply stateless_ret.
    + apply stateless_bind; [apply IH |]. intros x'.
      apply stateless_bind; [apply IHl |]. intros; apply stateless_ret.
Qed.

Lemma stateless_no_component el : stateless (no_component el).
Proof. intros w. reflexivity. Qed.

Lemma stateless_invoke_TextLabel p : stateless (invoke (TextLabel p)).
Proof. intros w. reflexivity. Qed.

Lemma stateless_mount_TextLabel el : stateless (mount_TextLabel text_throws el).
Proof.
  destruct el; try apply stateless_no_component.
  cbn [mount_TextLabel].
  apply stateless_bind; [apply stateless_invoke_TextLabel |].
  intros out. apply stateless_walk, stateless_no_component.
Qed.

Lemma stateless_mount_SimpleHypercube el :
  stateless (mount_SimpleHypercube text_throws el).
Proof.
  destruct el; try apply stateless_mount_TextLabel.
  apply stateless_walk, stateless_mount_TextLabel.
Qed.

Lemma stateless_mount_Scene st el : stateless (mount_Scene text_throws st el).
Proof.
  destruct el; try apply stateless_mount_SimpleHypercube.
  apply stateless_walk, stateless_mount_SimpleHypercube.
Qed.

Lemma stateless_mount_app prefs st : stateless (mount_app text_throws prefs st).
Proof. apply stateless_walk, stateless_mount_Scene. Qed.

End MountStateless.

(** C6.  In every environment, whichever audio calls fail and whether or
    not an audio context constructor exists: a commit of the effect
    (teardown of the previous run, then initialisation) completes without
    an exception, and so does the teardown on unmount; and after every
    event the widget is in the state, and shows the tree, that the event
    handlers and the render alone determine, the audio environment having
    no part in either.  The only exception a step can raise is one the
    render itself throws. *)
Theorem audio_failures_are_contained (env : Env) :
  (forall d hook w, exists hook' w',
      commit_effect env d hook w = (Returned hook', w'))
  /\ (forall hook w, exists w',
        unmount_effect env hook w = (Returned unmounted, w'))
  /\ (forall ev app,
        match ui_step (Text_throws env) ev (ui app) with
        | Returned (ui', tree) =>
            exists hook' w', step env ev app = Returned (mkApp ui' hook' w')
        | Raised e => step env ev app = Raised e
        end).
Proof.
  split; [| split].
  - intros d hook w. apply commit_effect_returns.
  - intros hook w. unfold unmount_effect.
    destruct (run_pending_returns env hook w) as (r & w' & ->).
    exists w'. reflexivity.
  - intros ev app. unfold ui_step, step, render_commit.
    rewrite (stateless_mount_app (Text_throws env) _ _ (world app)).
    destruct (mount_app (Text_throws env) (fst (dispatch ev (ui app)))
                (snd (dispatch ev (ui app))) empty_world) as [[tree | r | e] w0];
      cbn [fst]; try reflexivity.
    + destruct (commit_effect_returns env (effect_deps (dispatch ev (ui app)))
                  (hook app) (world app)) as (hook' & w' & ->).
      exists hook', w'. reflexivity.
    + destruct (commit_effect_returns env (effect_deps (dispatch ev (ui app)))
                  (hook app) (world app)) as (hook' & w' & ->).
      exists hook', w'. reflexivity.
Qed.

Example hostile_commit :
  commit_effect hostile (true, true) unmounted empty_world
  = (Returned (mkEffectHook (Some (true, true)) (Some undefined_locals)),
     mkWorld [] [] [] [("Audio error:", Error "NotSupportedError")]).
Proof. reflexivity. Qed.

Example unsupported_commit :
  commit_effect unsupported (true, true) unmounted empty_world
  = (Returned (mkEffectHook (Some (true, true)) None), empty_world).
Proof. reflexivity. Qed.

(** ** A session *)

(** Enabling sound starts the silent 10 Hz tone, hovering replaces it by
    the 40 Hz tone at gain 0.2, clicking leaves it alone, and disabling
    sound ends it. *)
Example session_tones :
  tones_after nominal [CheckedChange "sound-toggle" true]
    = Some [(Num.of_Z 10, n0)]
  /\ tones_after nominal [CheckedChange "sound-toggle" true; PointerOver]
    = Some [(Num.of_Z 40, n0_2)]
  /\ tones_after nominal [CheckedChange "sound-toggle" true; PointerOver; Click]
    = Some [(Num.of_Z 40, n0_2)]
  /\ tones_after nominal
       [CheckedChange "sound-toggle" true; PointerOver;
        CheckedChange "sound-toggle" false]
    = Some []
  /\ tones_after hostile [CheckedChange "sound-toggle" true; PointerOver]
    = Some []
  /\ tones_after unsupported [CheckedChange "sound-toggle" true; PointerOver]
    = Some [].
Proof. repeat split; vm_compute; reflexivity. Qed.

(** * Further properties *)

(** ** Handlers *)

(** X1.  Pointer-over and pointer-out set [hovered] to true and to false,
    whatever it was, and touch neither [clicked] nor the preferences; a
    click leaves [hovered] alone; hovering and clicking commute. *)
Theorem hover_sets_not_toggles (prefs : PrefState) (st : SceneState) :
  dispatch PointerOver (prefs, st) = (prefs, mkSceneState true (st_clicked st))
  /\ dispatch PointerOut (prefs, st) = (prefs, mkSceneState false (st_clicked st))
  /\ dispatch PointerOver (dispatch PointerOver (prefs, st))
     = dispatch PointerOver (prefs, st)
  /\ dispatch PointerOut (dispatch PointerOver (prefs, st))
     = dispatch PointerOut (prefs, st)
  /\ dispatch Click (dispatch PointerOver (prefs, st))
     = dispatch PointerOver (dispatch Click (prefs, st))
  /\ dispatch Click (dispatch PointerOut (prefs, st))
     = dispatch PointerOut (dispatch Click (prefs, st)).
Proof.
  destruct prefs as [hc se], st as [h c].
  destruct hc, se, h, c; repeat apply conj; by_evaluation.
Qed.

(** X2.  Each switch is controlled by its preference: a change of the
    "high-contrast" switch to [b] sets [highContrast] to [b] and nothing
    else, a change of the "sound-toggle" switch sets [soundEnabled], and
    the next render shows the switch with [checked] equal to [b]; the
    props Scene is rendered with are the two preferences. *)
Theorem switches_set_preferences (prefs : PrefState) (st : SceneState) (b : bool) :
  dispatch (CheckedChange "high-contrast" b) (prefs, st)
    = (mkPrefState b (pref_soundEnabled prefs), st)
  /\ dispatch (CheckedChange "sound-toggle" b) (prefs, st)
    = (mkPrefState (pref_highContrast prefs) b, st)
  /\ switch_checked "high-contrast"
       (HypercubeVisualization (fst (dispatch (CheckedChange "high-contrast" b) (prefs, st))))
     = Some (VBool b)
  /\ switch_checked "sound-toggle"
       (HypercubeVisualization (fst (dispatch (CheckedChange "sound-toggle" b) (prefs, st))))
     = Some (VBool b)
  /\ scene_props (HypercubeVisualization prefs)
     = mkSceneProps (pref_highContrast prefs) (pref_soundEnabled prefs).
Proof.
  destruct prefs as [hc se], st as [h c].
  destruct hc, se, b; repeat apply conj; by_evaluation.
Qed.

(** ** Labels and fractal *)

(** X3.  For a layer index between 0 and 4: while hovered, the layer shows
    one TextLabel with the growth stage of that index as its text, white on
    a black outline, no font size of its own, placed at height
    [(2 - i * 0.2) / 2 + 0.5], which is the double nearest to
    [(15 - i) / 10]; mounted, it is a [Text] of font size 0.2.  While not
    hovered the layer shows no label. *)
Theorem layer_label (p : SimpleHypercubeProps) (i : Z) :
  0 <= i <= 4 ->
  let label :=
    mkTextLabelProps (nth (Z.to_nat i) GROWTH_STAGES "")
      (vec3 n0 (Num.dec (15 - i) 1) n0) (Some "#FFFFFF") (Some "#000000") None in
  label_of (layer i (SimpleHypercube p))
    = Some (if hovered p then TextLabelEl label else Skip)
  /\ ((n2 - Num.of_Z i * n0_2) / n2 + n0_5)%num = Num.dec (15 - i) 1
  /\ (forall w, mount_TextLabel (Text_throws nominal) (TextLabelEl label) w
                = (Normal (text_element label), w))
  /\ prop "fontSize" (text_element label) = Some (VNum n0_2).
Proof.
  intros H. destruct p as [h c pc sc ac hc]. cbv zeta.
  each_index i H;
    (split; [destruct h, hc; by_evaluation
            | split; [by_evaluation | split; [intros w; by_evaluation | by_evaluation]]]).
Qed.

Lemma layer_label_witness :
  label_of (layer 4 (SimpleHypercube
                       (mkSimpleHypercubeProps true false "r" "g" "b" false)))
  = Some (TextLabelEl
            (mkTextLabelProps "Transformation Complete"
               (vec3 n0 (Num.dec 11 1) n0) (Some "#FFFFFF") (Some "#000000") None)).
Proof.
  pose proof (layer_label (mkSimpleHypercubeProps true false "r" "g" "b" false) 4
                ltac:(lia)) as H.
  cbv zeta in H. destruct H as [Hl _].
  rewrite Hl. vm_compute. reflexivity.
Defined.

Lemma level_cases (l : Z) : 0 <= l <= 2 -> l = 0 \/ l = 1 \/ l = 2.
Proof. lia. Qed.

(** X4.  While clicked, the fractal group is scaled by 0.5 and holds, for
    each level between 0 and 2, a mesh keyed "fractal-<level>", rotated by
    [level * Math.PI / 4] about x and y, whose box has the edge
    [1 - level * 0.3] (the double nearest to [(10 - 3 level) / 10],
    strictly below the edge of the level before) and whose material takes
    the accent colour; its caption is "Fractal Self-Reclamation" at
    [0, 1.5, 0] with font size 0.15. *)
Theorem fractal_cubes (p : SimpleHypercubeProps) (level : Z) :
  clicked p = true ->
  0 <= level <= 2 ->
  let tree := SimpleHypercube p in
  let mesh := nth_error (fractal_meshes tree) (Z.to_nat level) in
  let angle := (Num.of_Z level * Num.PI / n4)%num in
  let size := (n1 - Num.of_Z level * n0_3)%num in
  map (prop "scale") (fractal_groups tree) = [Some (vec3 n0_5 n0_5 n0_5)]
  /\ List.length (fractal_meshes tree) = 3%nat
  /\ prop_of "key" mesh = Some (VStr ("fractal-" ++ string_of_index level))
  /\ prop_of "rotation" mesh = Some (vec3 angle angle n0)
  /\ prop_of "args" (first_host "boxGeometry" mesh) = Some (vec3 size size size)
  /\ size = Num.dec (10 - 3 * level) 1
  /\ (1 <= level -> Num.ltb size (n1 - Num.of_Z (level - 1) * n0_3)%num = true)
  /\ prop_of "color" (first_host "meshStandardMaterial" mesh) = Some (VStr (accentColor p))
  /\ prop_of "emissive" (first_host "meshStandardMaterial" mesh) = Some (VStr (accentColor p))
  /\ fractal_caption tree
     = Some (TextLabelEl
               (mkTextLabelProps "Fractal Self-Reclamation" (vec3 n0 n1_5 n0)
                  (Some "#FFFFFF") (Some "#000000") (Some n0_15))).
Proof.
  intros Hc H. destruct p as [h c pc sc ac hc]. cbn in Hc. subst c. cbv zeta.
  destruct (level_cases level H) as [E | [E | E]]; subst level;
    destruct h, hc; repeat apply conj;
    try (intros Hl; try lia); by_evaluation.
Qed.

Lemma fractal_cubes_witness :
  prop_of "args"
    (first_host "boxGeometry"
       (nth_error
          (fractal_meshes
             (SimpleHypercube (mkSimpleHypercubeProps false true "r" "g" "b" false)))
          2))
  = Some (vec3 (Num.dec 4 1) (Num.dec 4 1) (Num.dec 4 1)).
Proof.
  pose proof (fractal_cubes (mkSimpleHypercubeProps false true "r" "g" "b" false) 2
                eq_refl ltac:(lia)) as H.
  cbv zeta in H. destruct H as (_ & _ & _ & _ & Hargs & _).
  change (Z.to_nat 2) with 2%nat in Hargs.
  rewrite Hargs. vm_compute. reflexivity.
Defined.

(** X5.  In every state the cubes are drawn alike: each standard material
    of the tree is a wireframe with emissive intensity 0.3, transparent at
    opacity 0.7, and its emissive colour is its colour; there are five of
    them, or eight while clicked. *)
Theorem materials_alike (p : SimpleHypercubeProps) :
  Forall (fun m => prop "wireframe" m = Some (VBool true)
                   /\ prop "emissiveIntensity" m = Some (VNum n0_3)
                   /\ prop "transparent" m = Some (VBool true)
                   /\ prop "opacity" m = Some (VNum n0_7)
                   /\ prop "emissive" m = prop "color" m)
         (hosts "meshStandardMaterial" (SimpleHypercube p))
  /\ List.length (hosts "meshStandardMaterial" (SimpleHypercube p))
     = (if clicked p then 8 else 5)%nat
  /\ List.length (hosts "boxGeometry" (SimpleHypercube p))
     = (if clicked p then 8 else 5)%nat.
Proof.
  destruct p as [h c pc sc ac hc].
  split; [| split].
  - destruct h, c; vm_compute; repeat constructor.
  - destruct h, c; by_evaluation.
  - destruct h, c; by_evaluation.
Qed.

(** ** Rendering and the Text component *)

Lemma bind_ext {St R A B : Type} (m1 m2 : M St R A) (k1 k2 : A -> M St R B) :
  (forall s, m1 s = m2 s) -> (forall a s, k1 a s = k2 a s) ->
  forall s, bind m1 k1 s = bind m2 k2 s.
Proof.
  intros Hm Hk s. unfold bind. rewrite Hm.
  destruct (m2 s) as [[a | r | e] s']; [apply Hk | reflexivity | reflexivity].
Qed.

Section MountExt.
Variables t1 t2 : Props -> bool.
Hypothesis Ht : forall ps, t1 ps = t2 ps.

Lemma render_ext_ext name ps w : render_ext t1 name ps w = render_ext t2 name ps w.
Proof. unfold render_ext. rewrite Ht. reflexivity. Qed.

Lemma walk_ext (h1 h2 : Element -> M World unit Element) :
  (forall el w, h1 el w = h2 el w) ->
  forall el w, walk t1 h1 el w = walk t2 h2 el w.
Proof.
  intros Hh. fix IH 1. intros el.
  destruct el as [tag ps cs | name ps cs | p | p | p | s | items |];
    cbn [walk]; try apply Hh; try reflexivity.
  - apply bind_ext; [| reflexivity].
    revert cs. fix IHl 1. intros [| x rest]; [reflexivity |].
    apply bind_ext; [apply IH |]. intros x'.
    apply bind_ext; [apply IHl | reflexivity].
  - apply bind_ext; [apply render_ext_ext |]. intros _.
    apply bind_ext; [| reflexivity].
    revert cs. fix IHl 1. intros [| x rest]; [reflexivity |].
    apply bind_ext; [apply IH |]. intros x'.
    apply bind_ext; [apply IHl | reflexivity].
  - apply bind_ext; [| reflexivity].
    revert items. fix IHl 1. intros [| x rest]; [reflexivity |].
    apply bind_ext; [apply IH |]. intros x'.
    apply bind_ext; [apply IHl | reflexivity].
Qed.

Lemma mount_TextLabel_ext el w : mount_TextLabel t1 el w = mount_TextLabel t2 el w.
Proof.
  destruct el; try reflexivity. cbn [mount_TextLabel].
  apply bind_ext; [reflexivity |]. intros out. apply walk_ext. reflexivity.
Qed.

Lemma mount_SimpleHypercube_ext el w :
  mount_SimpleHypercube t1 el w = mount_SimpleHypercube t2 el w.
Proof.
  destruct el; try apply mount_TextLabel_ext.
  apply walk_ext, mount_TextLabel_ext.
Qed.

Lemma mount_Scene_ext st el w : mount_Scene t1 st el w = mount_Scene t2 st el w.
Proof.
  destruct el; try apply mount_SimpleHypercube_ext.
  apply walk_ext, mount_SimpleHypercube_ext.
Qed.

Lemma mount_app_ext prefs st w : mount_app t1 prefs st w = mount_app t2 prefs st w.
Proof. apply walk_ext, mount_Scene_ext. Qed.

End MountExt.

Lemma mount_app_quiet_Text (prefs : PrefState) (st : SceneState) :
  exists tree,
    mount_app (fun _ => false) prefs st empty_world = (Normal tree, empty_world)
    /\ List.length (texts tree)
       = ((if st_hovered st then 5 else 0) + (if st_clicked st then 1 else 0))%nat.
Proof.
  destruct prefs as [hc se], st as [h c].
  destruct hc, se, h, c; eexists; (split; [by_evaluation | by_evaluation]).
Qed.

Lemma mount_app_returns (t : Props -> bool) (prefs : PrefState) (st : SceneState)
    (w : World) :
  (forall ps, t ps = false) ->
  exists tree, mount_app t prefs st w = (Normal tree, w).
Proof.
  intros Ht.
  destruct (mount_app_quiet_Text prefs st) as (tree & Hm & _).
  exists tree.
  rewrite (stateless_mount_app t prefs st w).
  rewrite (mount_app_ext t (fun _ => false) Ht prefs st empty_world), Hm.
  reflexivity.
Qed.

(** X6.  If the Text component renders whatever props it is given, the
    render of the widget returns a tree in every state and leaves the
    store alone; the tree holds one [Text] per layer while hovered and one
    more while clicked. *)
Theorem render_returns_when_Text_renders (t : Props -> bool)
    (prefs : PrefState) (st : SceneState) (w : World) :
  (forall ps, t ps = false) ->
  exists tree,
    mount_app t prefs st w = (Normal tree, w)
    /\ List.length (texts tree)
       = ((if st_hovered st then 5 else 0) + (if st_clicked st then 1 else 0))%nat.
Proof.
  intros Ht.
  destruct (mount_app_quiet_Text prefs st) as (tree & Hm & Hn).
  exists tree. split; [| exact Hn].
  rewrite (stateless_mount_app t prefs st w).
  rewrite (mount_app_ext t (fun _ => false) Ht prefs st empty_world), Hm.
  reflexivity.
Qed.

Lemma render_returns_when_Text_renders_witness :
  exists tree,
    mount_app (Text_throws nominal) (mkPrefState false true)
              (mkSceneState true true) empty_world
    = (Normal tree, empty_world)
    /\ List.length (texts tree) = 6%nat.
Proof.
  exact (render_returns_when_Text_renders (Text_throws nominal)
           (mkPrefState false true) (mkSceneState true true) empty_world
           (fun _ => eq_refl)).
Defined.

(** X7.  While neither hovered nor clicked the widget mounts no [Text]:
    its render returns a tree whatever the Text component would do. *)
Theorem render_without_labels_never_fails (t : Props -> bool)
    (prefs : PrefState) (st : SceneState) (w : World) :
  st_hovered st = false -> st_clicked st = false ->
  exists tree, mount_app t prefs st w = (Normal tree, w) /\ texts tree = [].
Proof.
  intros Hh Hc. destruct prefs as [hc se], st as [h c]. cbn in Hh, Hc. subst h c.
  destruct hc, se; eexists; (split; [by_evaluation | by_evaluation]).
Qed.

Lemma render_without_labels_never_fails_witness :
  exists tree,
    mount_app (fun _ => true) (mkPrefState true true)
              (mkSceneState false false) empty_world
    = (Normal tree, empty_world)
    /\ texts tree = [].
Proof.
  exact (render_without_labels_never_fails (fun _ => true)
           (mkPrefState true true) (mkSceneState false false) empty_world
           eq_refl eq_refl).
Defined.

(** X8.  If the Text component fails on whatever props it is given, the
    render of the widget throws that failure as soon as a label is shown,
    that is, in every state that is hovered or clicked. *)
Theorem render_fails_when_label_shown (t : Props -> bool)
    (prefs : PrefState) (st : SceneState) (w : World) :
  (forall ps, t ps = true) ->
  st_hovered st || st_clicked st = true ->
  mount_app t prefs st w = (Throw (Error "Text"), w).
Proof.
  intros Ht Hs.
  rewrite (stateless_mount_app t prefs st w).
  rewrite (mount_app_ext t (fun _ => true) Ht prefs st empty_world).
  destruct prefs as [hc se], st as [h c].
  destruct hc, se, h, c; try discriminate Hs; by_evaluation.
Qed.

Lemma render_fails_when_label_shown_witness :
  mount_app (fun _ => true) (mkPrefState false false)
            (mkSceneState false true) empty_world
  = (Throw (Error "Text"), empty_world).
Proof.
  exact (render_fails_when_label_shown (fun _ => true)
           (mkPrefState false false) (mkSceneState false true) empty_world
           (fun _ => eq_refl) eq_refl).
Defined.

(** ** The widget and its tone *)

Lemma effect_deps_spec (prefs : PrefState) (st : SceneState) :
  effect_deps (prefs, st) = (pref_soundEnabled prefs, st_hovered st).
Proof. destruct prefs as [[|] [|]]; reflexivity. Qed.

Lemma commit_effect_deps (env : Env) (d : bool * bool) (hook hook' : EffectHook)
    (w w' : World) :
  commit_effect env d hook w = (Returned hook', w') -> last_deps hook' = Some d.
Proof.
  unfold commit_effect. destruct (same_deps (last_deps hook) d) eqn:Hsame.
  - intros H. injection H as <- _. apply same_deps_true, Hsame.
  - destruct (run_pending env hook w) as [[r | e] w1]; [| discriminate].
    destruct (call (audio_effect env (fst d) (snd d)) (w1, undefined_locals))
      as [[c | e] s2]; [| discriminate].
    intros H. injection H as <- _. reflexivity.
Qed.

Lemma render_commit_spec (env : Env) (u : UI) (hk : EffectHook) (w : World) (app : App) :
  render_commit env u hk w = Returned app ->
  ui app = u
  /\ commit_effect env (effect_deps u) hk w = (Returned (hook app), world app).
Proof.
  unfold render_commit.
  rewrite (stateless_mount_app (Text_throws env) (fst u) (snd u) w).
  destruct (mount_app (Text_throws env) (fst u) (snd u) empty_world)
    as [[tree | r | e] w0]; cbn [fst]; try discriminate;
    destruct (commit_effect env (effect_deps u) hk w) as [[hook' | e] w2];
    try discriminate; intros H; injection H as <-; split; reflexivity.
Qed.

Lemma render_commit_returns (env : Env) (u : UI) (hk : EffectHook) (w : World) :
  (forall ps, Text_throws env ps = false) ->
  exists app, render_commit env u hk w = Returned app.
Proof.
  intros Ht. unfold render_commit.
  destruct (mount_app_returns (Text_throws env) (fst u) (snd u) w Ht)
    as (tree & ->).
  destruct (commit_effect_returns env (effect_deps u) hk w) as (hook' & w' & ->).
  eexists. reflexivity.
Qed.

Lemma render_commit_inv (env : Env) (u : UI) (hk : EffectHook) (w : World) (app : App) :
  audio_ok env -> hook_inv hk w ->
  render_commit env u hk w = Returned app -> app_inv app.
Proof.
  intros Hok Hinv H.
  destruct (render_commit_spec env u hk w app H) as [Hu Hc].
  destruct (commit_effect_ok env (effect_deps u) hk w Hok Hinv)
    as (hook' & w' & Hc' & Hinv' & _).
  rewrite Hc in Hc'. injection Hc' as <- <-.
  split; [exact Hinv' |].
  rewrite Hu. eapply commit_effect_deps, Hc.
Qed.

Lemma live_tones_of_inv (hk : EffectHook) (w : World) (d : bool * bool) :
  hook_inv hk w -> last_deps hk = Some d -> live_tones w = expected_tones d.
Proof.
  unfold hook_inv, expected_tones. intros Hinv Hd.
  destruct (pending hk) as [c |].
  - destruct Hinv as (hov & w0 & Hd' & Hq & -> & _).
    rewrite Hd' in Hd. injection Hd as <-. cbn [fst snd].
    apply live_tones_added, Hq.
  - destruct Hinv as [Hq [Hn | [hov Hd']]]; rewrite Hd in *; [discriminate |].
    injection Hd' as ->. cbn [fst]. apply live_tones_quiet, Hq.
Qed.

Lemma run_inv (env : Env) (evs : list Event) :
  audio_ok env -> (forall ps, Text_throws env ps = false) ->
  forall app, app_inv app ->
  exists app', run env evs app = Returned app'
               /\ app_inv app' /\ ui app' = ui_after evs (ui app).
Proof.
  intros Hok Ht. induction evs as [| ev evs IH]; intros app Hinv.
  - exists app. repeat split; try apply Hinv.
  - cbn [run ui_after fold_left]. unfold step.
    destruct (render_commit_returns env (dispatch ev (ui app)) (hook app) (world app) Ht)
      as (app1 & H1).
    rewrite H1.
    pose proof (render_commit_inv env _ _ _ _ Hok (proj1 Hinv) H1) as Hinv1.
    destruct (IH app1 Hinv1) as (app' & Hrun & Hinv' & Hui).
    exists app'. split; [exact Hrun |]. split; [exact Hinv' |].
    rewrite Hui. destruct (render_commit_spec env _ _ _ _ H1) as [-> _].
    reflexivity.
Qed.

(** X9.  Where the audio calls succeed and Text renders: after mounting
    and any sequence of events the widget is in the state the handlers
    lead to, and the tones that sound are decided by that state alone, one
    tone while [soundEnabled] (40 Hz at gain 0.2 while hovered, 10 Hz at
    gain 0 otherwise) and none while it is off. *)
Theorem app_tones_follow_state (env : Env) (evs : list Event) :
  audio_ok env -> (forall ps, Text_throws env ps = false) ->
  exists app0 app,
    mount env = Returned app0
    /\ run env evs app0 = Returned app
    /\ ui app = ui_after evs initial_ui
    /\ live_tones (world app)
       = if pref_soundEnabled (fst (ui app))
         then [(if st_hovered (snd (ui app)) then Num.of_Z 40 else Num.of_Z 10,
                if st_hovered (snd (ui app)) then n0_2 else n0)]
         else [].
Proof.
  intros Hok Ht. unfold mount.
  destruct (render_commit_returns env initial_ui unmounted empty_world Ht)
    as (app0 & H0).
  pose proof (render_commit_inv env _ _ _ _ Hok hook_inv_unmounted H0) as Hinv0.
  destruct (run_inv env evs Hok Ht app0 Hinv0) as (app & Hrun & [Hinv Hd] & Hui).
  exists app0, app. split; [exact H0 |]. split; [exact Hrun |]. split.
  - rewrite Hui. destruct (render_commit_spec env _ _ _ _ H0) as [-> _]. reflexivity.
  - rewrite (live_tones_of_inv _ _ _ Hinv Hd).
    destruct (ui app) as [prefs st]. rewrite effect_deps_spec. reflexivity.
Qed.

Lemma app_tones_follow_state_witness :
  exists app0 app,
    mount nominal = Returned app0
    /\ run nominal [CheckedChange "sound-toggle" true; PointerOver; Click] app0
       = Returned app
    /\ live_tones (world app) = [(Num.of_Z 40, n0_2)].
Proof.
  destruct (app_tones_follow_state nominal
              [CheckedChange "sound-toggle" true; PointerOver; Click]
              (conj eq_refl (fun _ _ => eq_refl)) (fun _ => eq_refl))
    as (app0 & app & Hm & Hrun & Hui & Hlive).
  exists app0, app. split; [exact Hm |]. split; [exact Hrun |].
  rewrite Hlive, Hui. vm_compute. reflexivity.
Defined.

Lemma run_deps (env : Env) (evs : list Event) :
  forall app app',
    last_deps (hook app) = Some (effect_deps (ui app)) ->
    run env evs app = Returned app' ->
    last_deps (hook app') = Some (effect_deps (ui app')).
Proof.
  induction evs as [| ev evs IH]; intros app app' Hd Hrun.
  - cbn in Hrun. injection Hrun as <-. exact Hd.
  - cbn [run] in Hrun. unfold step in Hrun.
    destruct (render_commit env (dispatch ev (ui app)) (hook app) (world app))
      as [app1 | e] eqn:H1; [| discriminate].
    apply (IH app1 app'); [| exact Hrun].
    destruct (render_commit_spec env _ _ _ _ H1) as [Hu Hc].
    rewrite Hu. eapply commit_effect_deps, Hc.
Qed.

Lemma quiet_events (ev : Event) (u : UI) :
  (ev = Click \/ exists b, ev = CheckedChange "high-contrast" b) ->
  effect_deps (dispatch ev u) = effect_deps u.
Proof.
  destruct u as [[hc se] [h c]].
  intros [-> | [b ->]]; [| destruct b]; destruct hc, se, h, c; by_evaluation.
Qed.

Lemma same_deps_refl (d : bool * bool) : same_deps (Some d) d = true.
Proof. destruct d as [[|] [|]]; reflexivity. Qed.

(** X10.  In every environment, a click or a change of the high-contrast
    switch leaves the audio alone: in any state reached from the mount, if
    the step returns, the store of audio nodes and the pending cleanup are
    what they were, so the tone is neither torn down nor built again. *)
Theorem click_and_contrast_leave_audio_alone (env : Env) (evs : list Event)
    (ev : Event) (app0 app app' : App) :
  mount env = Returned app0 ->
  run env evs app0 = Returned app ->
  (ev = Click \/ exists b, ev = CheckedChange "high-contrast" b) ->
  step env ev app = Returned app' ->
  world app' = world app /\ hook app' = hook app.
Proof.
  intros Hm Hrun Hev Hstep.
  assert (Hd0 : last_deps (hook app0) = Some (effect_deps (ui app0))).
  { unfold mount in Hm. destruct (render_commit_spec env _ _ _ _ Hm) as [Hu Hc].
    rewrite Hu. eapply commit_effect_deps, Hc. }
  pose proof (run_deps env evs app0 app Hd0 Hrun) as Hd.
  unfold step in Hstep.
  destruct (render_commit_spec env _ _ _ _ Hstep) as [_ Hc].
  rewrite (quiet_events ev (ui app) Hev) in Hc.
  unfold commit_effect in Hc. rewrite Hd, same_deps_refl in Hc.
  injection Hc as <- <-. split; reflexivity.
Qed.

Lemma click_and_contrast_leave_audio_alone_witness :
  exists app0 app app',
    mount nominal = Returned app0
    /\ run nominal [CheckedChange "sound-toggle" true; PointerOver] app0 = Returned app
    /\ step nominal Click app = Returned app'
    /\ world app' = world app /\ hook app' = hook app.
Proof.
  destruct (mount nominal) as [app0 | e] eqn:Hm; [| vm_compute in Hm; discriminate].
  destruct (run nominal [CheckedChange "sound-toggle" true; PointerOver] app0)
    as [app | e] eqn:Hrun.
  2:{ vm_compute in Hm. injection Hm as <-. vm_compute in Hrun. discriminate. }
  destruct (step nominal Click app) as [app' | e] eqn:Hstep.
  2:{ vm_compute in Hm. injection Hm as <-. vm_compute in Hrun.
      injection Hrun as <-. vm_compute in Hstep. discriminate. }
  exists app0, app, app'.
  split; [reflexivity |]. split; [exact Hrun |]. split; [exact Hstep |].
  exact (click_and_contrast_leave_audio_alone nominal
           [CheckedChange "sound-toggle" true; PointerOver] Click app0 app app'
           Hm Hrun (or_introl eq_refl) Hstep).
Defined.

(** ** Teardown *)

(** X11.  Where the audio calls succeed, unmounting after any sequence of
    commits returns and leaves nothing sounding: every oscillator is
    stopped, every context is closed, and no node is created by the
    teardown. *)
Theorem unmount_silences (env : Env) (ds : list (bool * bool)) :
  audio_ok env ->
  exists hook w w',
    commits env ds unmounted empty_world = (Returned hook, w)
    /\ unmount_effect env hook w = (Returned unmounted, w')
    /\ live_tones w' = []
    /\ Forall (fun o => osc_stopped o = true) (oscillators w')
    /\ Forall (fun c => ac_closed c = true) (contexts w')
    /\ List.length (oscillators w') = List.length (oscillators w)
    /\ List.length (contexts w') = List.length (contexts w)
    /\ gains w' = gains w.
Proof.
  intros Hok.
  destruct (commits_ok env ds Hok _ _ hook_inv_unmounted) as (hook & w & Hrun & Hinv).
  destruct (run_pending_ok env hook w Hok Hinv) as (w1 & Hp & Hq & Hlo & Hlc & Hg & _).
  exists hook, w, w1. split; [exact Hrun |]. split.
  - unfold unmount_effect. rewrite Hp. reflexivity.
  - split; [apply live_tones_quiet, Hq |].
    split; [apply Hq |]. split; [apply Hq |]. repeat split; assumption.
Qed.

Lemma unmount_silences_witness :
  exists hook w w',
    commits nominal [(true, false); (true, true)] unmounted empty_world
    = (Returned hook, w)
    /\ unmount_effect nominal hook w = (Returned unmounted, w')
    /\ live_tones w' = [].
Proof.
  destruct (unmount_silences nominal [(true, false); (true, true)]
              (conj eq_refl (fun _ _ => eq_refl)))
    as (hook & w & w' & Hrun & Hun & Hlive & _).
  exists hook, w, w'. repeat split; assumption.
Defined.

Lemma stop_throw_unchanged (env : Env) (o : nat) (w w1 : World) (e : Exn) :
  stop (R := unit) env o w = (Throw e, w1) -> w1 = w.
Proof.
  unfold stop, bind, guard, get, update_osc, modify, throw.
  destruct (throws env Stop w); [intros H; injection H as _ <-; reflexivity |].
  destruct (nth_error (oscillators w) o) as [x |].
  - destruct (osc_started x); [discriminate |].
    intros H; injection H as _ <-; reflexivity.
  - intros H; injection H as _ <-; reflexivity.
Qed.

(** X12.  The teardown stops the oscillator before it closes the context,
    in one [try] block: in any environment, when the cleanup holds an
    oscillator and a context and stopping the oscillator throws, the
    cleanup still returns, the failure is logged, and the context is never
    closed (the store of audio nodes is as it was). *)
Theorem cleanup_skips_close_when_stop_throws (env : Env) (c : Cleanup)
    (o ac : nat) (w w1 : World) (e : Exn) :
  oscillator c = Some o ->
  audioContext c = Some ac ->
  stop (R := unit) env o w = (Throw e, w1) ->
  call (audio_cleanup env c) w
  = (Returned None,
     mkWorld (contexts w) (oscillators w) (gains w)
             (console w ++ [("Audio cleanup error:", e)])).
Proof.
  intros Ho Hac Hstop.
  pose proof (stop_throw_unchanged env o w w1 e Hstop) as ->.
  unfold audio_cleanup, call. rewrite Ho, Hac.
  unfold try_catch, bind at 1. rewrite Hstop. reflexivity.
Qed.

Lemma cleanup_skips_close_when_stop_throws_witness :
  let c := mkLocals (Some 0%nat) (Some 0%nat) (Some 0%nat) in
  let w := mkWorld [mkAudioContext false]
                   [mkOscillator 0 "sine" (Num.of_Z 40) None false false]
                   [mkGain 0 n0_2 false]
                   [("Audio error:", Error "connect")] in
  commit_effect no_connect (true, true) unmounted empty_world
  = (Returned (mkEffectHook (Some (true, true)) (Some c)), w)
  /\ call (audio_cleanup no_connect c) w
     = (Returned None,
        mkWorld (contexts w) (oscillators w) (gains w)
                (console w ++ [("Audio cleanup error:", Error "InvalidStateError")])).
Proof.
  cbv zeta. split; [vm_compute; reflexivity |].
  apply (cleanup_skips_close_when_stop_throws no_connect
           (mkLocals (Some 0%nat) (Some 0%nat) (Some 0%nat)) 0 0
           (mkWorld [mkAudioContext false]
                    [mkOscillator 0 "sine" (Num.of_Z 40) None false false]
                    [mkGain 0 n0_2 false]
                    [("Audio error:", Error "connect")])
           (mkWorld [mkAudioContext false]
                    [mkOscillator 0 "sine" (Num.of_Z 40) None false false]
                    [mkGain 0 n0_2 false]
                    [("Audio error:", Error "connect")])
           (Error "InvalidStateError") eq_refl eq_refl).
  vm_compute. reflexivity.
Defined.

Lemma update_nth_length {A : Type} (f : A -> A) (l : list A) (i : nat) :
  List.length (update_nth i f l) = List.length l.
Proof.
  revert i. induction l as [| x l IH]; intros [| i]; cbn; try reflexivity.
  rewrite IH. reflexivity.
Qed.

Lemma same_nodes_refl (w : World) : same_nodes w w.
Proof. repeat split; reflexivity. Qed.

Lemma same_nodes_trans (w1 w2 w3 : World) :
  same_nodes w1 w2 -> same_nodes w2 w3 -> same_nodes w1 w3.
Proof.
  unfold same_nodes. intros (A1 & A2 & A3) (B1 & B2 & B3).
  repeat split; congruence.
Qed.

Lemma stop_same_nodes (env : Env) (o : nat) (w w' : World) (c : Completion unit unit) :
  stop env o w = (c, w') -> same_nodes w w'.
Proof.
  unfold stop, bind, guard, get, update_osc, modify, throw, set_oscillators.
  destruct (throws env Stop w);
    [intros H; injection H as _ <-; apply same_nodes_refl |].
  destruct (nth_error (oscillators w) o) as [x |];
    [destruct (osc_started x) |];
    intros H; injection H as _ <-; try apply same_nodes_refl.
  unfold same_nodes. cbn. rewrite update_nth_length. repeat split; reflexivity.
Qed.

Lemma close_same_nodes (env : Env) (ac : nat) (w w' : World) (c : Completion unit unit) :
  close env ac w = (c, w') -> same_nodes w w'.
Proof.
  unfold close, bind, guard, modify, set_contexts.
  destruct (throws env Close w);
    intros H; injection H as _ <-; [apply same_nodes_refl |].
  unfold same_nodes. cbn. rewrite update_nth_length. repeat split; reflexivity.
Qed.

Lemma audio_cleanup_same_nodes (env : Env) (c : Cleanup) (w w' : World) r :
  call (audio_cleanup env c) w = (r, w') -> same_nodes w w'.
Proof.
  unfold audio_cleanup, call, try_catch.
  set (body := bind _ _).
  destruct (body w) as [cb wb] eqn:Hb.
  assert (Hs : same_nodes w wb).
  { subst body. unfold bind at 1 in Hb.
    destruct (oscillator c) as [o |].
    - destruct (stop env o w) as [c1 w1] eqn:H1.
      pose proof (stop_same_nodes env o w w1 c1 H1) as S1.
      destruct c1 as [[] | r1 | e1];
        [| injection Hb as _ <-; exact S1 | injection Hb as _ <-; exact S1].
      destruct (audioContext c) as [ac |].
      + eapply same_nodes_trans; [exact S1 | eapply close_same_nodes, Hb].
      + injection Hb as _ <-. exact S1.
    - cbn in Hb. destruct (audioContext c) as [ac |].
      + eapply close_same_nodes, Hb.
      + injection Hb as _ <-. apply same_nodes_refl. }
  destruct cb as [a | r0 | e]; cbn; intros H; injection H as _ <-; exact Hs.
Qed.

(** X13.  In every environment, a commit for [soundEnabled] false, or any
    commit where no audio context constructor exists, creates no audio
    node, and after a change of dependencies it leaves no cleanup
    pending. *)
Theorem no_node_without_sound_or_support (env : Env) (d : bool * bool)
    (hook hook' : EffectHook) (w w' : World) :
  fst d = false \/ has_AudioContext env = false ->
  commit_effect env d hook w = (Returned hook', w') ->
  List.length (contexts w') = List.length (contexts w)
  /\ List.length (oscillators w') = List.length (oscillators w)
  /\ List.length (gains w') = List.length (gains w)
  /\ (same_deps (last_deps hook) d = false -> pending hook' = None).
Proof.
  intros Hd. unfold commit_effect.
  destruct (same_deps (last_deps hook) d).
  - intros H. injection H as <- <-. repeat split; try reflexivity. discriminate.
  - destruct (run_pending env hook w) as [[r | e] w1] eqn:Hp; [| discriminate].
    assert (Hs : same_nodes w w1).
    { unfold run_pending in Hp. destruct (pending hook) as [c |].
      - eapply audio_cleanup_same_nodes, Hp.
      - injection Hp as _ <-. repeat split; reflexivity. }
    assert (He : call (audio_effect env (fst d) (snd d)) (w1, undefined_locals)
                 = (Returned None, (w1, undefined_locals))).
    { unfold audio_effect. destruct (fst d); [| reflexivity].
      destruct Hd as [Hd | Hd]; [discriminate |].
      cbn [negb]. unfold call, bind, try_catch. rewrite Hd. reflexivity. }
    rewrite He. cbn [fst]. intros H. injection H as <- <-.
    destruct Hs as (Hc & Ho & Hg). repeat split; assumption.
Qed.

Lemma no_node_without_sound_or_support_witness :
  exists hook w hook' w',
    commit_effect nominal (true, true) unmounted empty_world = (Returned hook, w)
    /\ commit_effect nominal (false, true) hook w = (Returned hook', w')
    /\ List.length (contexts w') = 1%nat
    /\ pending hook' = None.
Proof.
  destruct (commit_effect nominal (true, true) unmounted empty_world)
    as [[hook | e] w] eqn:H1; [| vm_compute in H1; discriminate].
  destruct (commit_effect nominal (false, true) hook w)
    as [[hook' | e] w'] eqn:H2.
  2:{ vm_compute in H1. injection H1 as <- <-. vm_compute in H2. discriminate. }
  destruct (no_node_without_sound_or_support nominal (false, true) hook hook' w w'
              (or_introl eq_refl) H2) as (Hc & _ & _ & Hp).
  exists hook, w, hook', w'.
  split; [reflexivity |]. split; [exact H2 |]. split.
  - rewrite Hc. vm_compute in H1. injection H1 as _ <-. reflexivity.
  - apply Hp. vm_compute in H1. injection H1 as <- _. reflexivity.
Defined.

(** X14.  When the context is constructed and creating the oscillator then
    throws, the failure is logged, the effect still returns its cleanup,
    and the next teardown closes the context: a construction that fails
    before any oscillator exists leaves no open context behind. *)
Theorem failed_oscillator_closes_context (env : Env) (hovered : bool) (w : World) :
  has_AudioContext env = true ->
  (forall w, throws env NewAudioContext w = false) ->
  (forall w, throws env CreateOscillator w = true) ->
  (forall w, throws env Close w = false) ->
  exists hook1 w1 w2,
    commit_effect env (true, hovered) unmounted w = (Returned hook1, w1)
    /\ pending hook1 = Some (mkLocals (Some (List.length (contexts w))) None None)
    /\ contexts w1 = contexts w ++ [mkAudioContext false]
    /\ oscillators w1 = oscillators w
    /\ gains w1 = gains w
    /\ console w1 = console w ++ [("Audio error:", Error "createOscillator")]
    /\ unmount_effect env hook1 w1 = (Returned unmounted, w2)
    /\ contexts w2 = contexts w ++ [mkAudioContext true]
    /\ oscillators w2 = oscillators w
    /\ console w2 = console w1.
Proof.
  intros Hac Hnew Hosc Hclose. destruct w as [cs os gs log].
  eexists _, _, _. split.
  - unfold commit_effect, run_pending, audio_effect, call.
    cbn [same_deps last_deps unmounted pending fst snd negb].
    rewrite Hac. cbn [negb].
    unfold try_catch, bind, liftW, assign, modify, get, ret, return_,
      new_AudioContext, createOscillator, console_error, guard, bind,
      get, modify, ret, set_contexts.
    cbn [fst snd]. rewrite Hnew. cbn [fst snd contexts oscillators gains console].
    rewrite Hosc. cbn [fst snd contexts oscillators gains console].
    reflexivity.
  - cbn [pending contexts oscillators gains console audioContext oscillator].
    do 5 (split; [reflexivity |]).
    unfold unmount_effect, run_pending, audio_cleanup, call.
    cbn [pending oscillator audioContext].
    unfold try_catch, bind, close, guard, modify, ret, bind, set_contexts,
      undefined_locals.
    cbn [oscillator audioContext gainNode].
    rewrite Hclose. cbn [fst snd contexts oscillators gains console].
    rewrite update_nth_snoc.
    repeat split; reflexivity.
Qed.

Lemma failed_oscillator_closes_context_witness :
  exists hook1 w1 w2,
    commit_effect no_oscillator (true, true) unmounted empty_world = (Returned hook1, w1)
    /\ contexts w1 = [mkAudioContext false]
    /\ unmount_effect no_oscillator hook1 w1 = (Returned unmounted, w2)
    /\ contexts w2 = [mkAudioContext true].
Proof.
  destruct (failed_oscillator_closes_context no_oscillator true empty_world
              eq_refl (fun _ => eq_refl) (fun _ => eq_refl) (fun _ => eq_refl))
    as (hook1 & w1 & w2 & H1 & _ & Hc1 & _ & _ & _ & H2 & Hc2 & _).
  exists hook1, w1, w2. repeat split; assumption.
Defined.

(** ** The animation loop *)

Lemma animate_spec (s : AnimState) :
  animate s
  = mkAnimState (option_map spin (groupRef s)) (Some (S (last_request s)))
                (S (last_request s))
                (frame_callbacks s ++ [(S (last_request s), Animate)]).
Proof.
  unfold animate. destruct (groupRef s) as [r |] eqn:E; cbn; rewrite ?E; reflexivity.
Qed.

Lemma animation_effect_running (s0 : AnimState) :
  foreign_only s0 ->
  anim_running (animation_effect s0)
  /\ groupRef (animation_effect s0) = option_map spin (groupRef s0)
  /\ last_request (animation_effect s0) = S (last_request s0).
Proof.
  intros Hf. unfold animation_effect. rewrite animate_spec.
  cbn [groupRef last_request frame_callbacks animationId].
  split; [| split; reflexivity].
  exists (frame_callbacks s0). cbn [frame_callbacks last_request animationId].
  split; [reflexivity |]. split; [| split; [reflexivity | lia]].
  eapply Forall_impl; [| exact Hf]. intros c [Hc Hl]. split; [exact Hc | lia].
Qed.

Lemma fold_foreign (fs : list (nat * FrameCallback)) (s : AnimState) :
  Forall (fun c => snd c = Foreign) fs ->
  fold_left (fun s c => match snd c with
                        | Animate => animate s
                        | Foreign => s
                        end) fs s = s.
Proof.
  revert s. induction fs as [| c fs IH]; intros s Hf; [reflexivity |].
  inversion Hf as [| c' fs' Hc Hfs]; subst. cbn [fold_left]. rewrite Hc.
  apply IH, Hfs.
Qed.

Lemma run_frame_running (s : AnimState) :
  anim_running s ->
  run_frame s
  = mkAnimState (option_map spin (groupRef s)) (Some (S (last_request s)))
                (S (last_request s)) [(S (last_request s), Animate)].
Proof.
  intros (fs & Hcb & Hfs & _ & _). unfold run_frame. rewrite Hcb.
  rewrite fold_left_app, (fold_foreign fs).
  - cbn [fold_left snd]. rewrite animate_spec. reflexivity.
  - eapply Forall_impl; [| exact Hfs]. intros c [Hc _]. exact Hc.
Qed.

Lemma run_frame_keeps_running (s : AnimState) :
  anim_running s -> anim_running (run_frame s).
Proof.
  intros Hr. rewrite (run_frame_running s Hr).
  exists []. cbn. repeat split; [constructor | lia].
Qed.

Lemma iter_spin (n : nat) (r : option (num * num)) :
  option_map spin (option_map (Nat.iter n spin) r) = option_map (Nat.iter (S n) spin) r.
Proof. destruct r; reflexivity. Qed.

Lemma frames_running (s0 : AnimState) (n : nat) :
  foreign_only s0 ->
  let s := Nat.iter n run_frame (animation_effect s0) in
  anim_running s
  /\ groupRef s = option_map (Nat.iter (S n) spin) (groupRef s0)
  /\ last_request s = (S n + last_request s0)%nat.
Proof.
  intros Hf. cbv zeta. induction n as [| n IH].
  - destruct (animation_effect_running s0 Hf) as (Hr & Hg & Hl).
    cbn [Nat.iter nat_rect]. repeat split; assumption.
  - destruct IH as (Hr & Hg & Hl).
    change (Nat.iter (S n) run_frame (animation_effect s0))
      with (run_frame (Nat.iter n run_frame (animation_effect s0))).
    split; [apply run_frame_keeps_running, Hr |].
    rewrite (run_frame_running _ Hr). cbn [groupRef last_request].
    rewrite Hg, Hl, iter_spin. split; reflexivity.
Qed.

(** X15.  Started among callbacks of other code only, the animation loop
    keeps itself going: after the mount and any number of frames the group
    has been turned once by the mount and once per frame (by 0.001 about x
    and 0.002 about y each time; not at all while the ref is empty),
    exactly one [animate] callback waits for the next frame, and
    [animationId] is the id of that request. *)
Theorem animation_loop (s0 : AnimState) (n : nat) :
  foreign_only s0 ->
  let s := Nat.iter n run_frame (animation_effect s0) in
  groupRef s = option_map (Nat.iter (S n) spin) (groupRef s0)
  /\ filter is_animate (frame_callbacks s) = [(last_request s, Animate)]
  /\ animationId s = Some (last_request s)
  /\ last_request s = (S n + last_request s0)%nat.
Proof.
  intros Hf. cbv zeta.
  destruct (frames_running s0 n Hf) as ((fs & Hcb & Hfs & Hid & _) & Hg & Hl).
  split; [exact Hg |]. split; [| split; assumption].
  rewrite Hcb, filter_app. cbn.
  replace (filter is_animate fs) with (@nil (nat * FrameCallback)); [reflexivity |].
  symmetry. clear Hcb. induction Hfs as [| c fs [Hc _] _ IH]; [reflexivity |].
  cbn. unfold is_animate at 1. rewrite Hc. exact IH.
Qed.

Lemma animation_loop_witness :
  let s0 := mkAnimState (Some (n0, n0)) None 7 [(7%nat, Foreign)] in
  let s := Nat.iter 2 run_frame (animation_effect s0) in
  groupRef s = Some (spin (spin (spin (n0, n0))))
  /\ frame_callbacks s = [(10%nat, Animate)].
Proof.
  cbv zeta.
  destruct (animation_loop (mkAnimState (Some (n0, n0)) None 7 [(7%nat, Foreign)]) 2)
    as (Hg & _).
  - repeat constructor.
  - split; [exact Hg | vm_compute; reflexivity].
Defined.

Lemma filter_cancel (fs : list (nat * FrameCallback)) (id : nat) :
  Forall (fun c => snd c = Foreign /\ (fst c < id)%nat) fs ->
  filter (fun c => negb (Nat.eqb (fst c) id)) fs = fs.
Proof.
  induction 1 as [| c fs [_ Hl] _ IH]; [reflexivity |].
  cbn. rewrite IH. destruct (Nat.eqb_spec (fst c) id); [lia | reflexivity].
Qed.

Lemma run_frame_idle (s : AnimState) :
  Forall (fun c => snd c = Foreign) (frame_callbacks s) ->
  run_frame s = mkAnimState (groupRef s) (animationId s) (last_request s) [].
Proof. intros Hf. unfold run_frame. apply fold_foreign, Hf. Qed.

Lemma frames_idle (s : AnimState) (m : nat) :
  Forall (fun c => snd c = Foreign) (frame_callbacks s) ->
  groupRef (Nat.iter m run_frame s) = groupRef s
  /\ Forall (fun c => snd c = Foreign) (frame_callbacks (Nat.iter m run_frame s))
  /\ frame_callbacks (Nat.iter (S m) run_frame s) = [].
Proof.
  intros Hf. induction m as [| m (Hg & Hfm & _)].
  - split; [reflexivity |]. split; [exact Hf |].
    cbn [Nat.iter nat_rect]. rewrite (run_frame_idle s Hf). reflexivity.
  - change (Nat.iter (S (S m)) run_frame s)
      with (run_frame (Nat.iter (S m) run_frame s)).
    change (Nat.iter (S m) run_frame s) with (run_frame (Nat.iter m run_frame s)).
    rewrite (run_frame_idle _ Hfm). cbn [groupRef frame_callbacks].
    split; [exact Hg |]. split; [constructor |].
    rewrite run_frame_idle; [reflexivity | constructor].
Qed.

(** X16.  The cleanup stops the loop for good: run after the mount and any
    number of frames, it removes the one waiting [animate] callback and
    nothing else, and however many frames follow, the group is not turned
    again and no callback is requested. *)
Theorem animation_cancelled (s0 : AnimState) (n m : nat) :
  foreign_only s0 ->
  let running := Nat.iter n run_frame (animation_effect s0) in
  let s := animation_cleanup running in
  filter is_animate (frame_callbacks s) = []
  /\ frame_callbacks running = frame_callbacks s ++ [(last_request running, Animate)]
  /\ groupRef (Nat.iter m run_frame s) = groupRef running
  /\ frame_callbacks (Nat.iter (S m) run_frame s) = [].
Proof.
  intros Hf. cbv zeta.
  destruct (frames_running s0 n Hf) as ((fs & Hcb & Hfs & Hid & Hone) & _ & _).
  set (running := Nat.iter n run_frame (animation_effect s0)) in *.
  assert (Hs : animation_cleanup running
               = mkAnimState (groupRef running) (animationId running)
                             (last_request running) fs).
  { unfold animation_cleanup. rewrite Hid.
    destruct (last_request running) as [| id] eqn:El; [lia |].
    unfold cancelAnimationFrame. rewrite Hcb, filter_app, El.
    rewrite (filter_cancel fs (S id) Hfs). cbn. rewrite Nat.eqb_refl. cbn.
    rewrite app_nil_r, Hid. reflexivity. }
  rewrite Hs.
  assert (Hforeign : Forall (fun c => snd c = Foreign) fs).
  { eapply Forall_impl; [| exact Hfs]. intros c [Hc _]. exact Hc. }
  destruct (frames_idle (mkAnimState (groupRef running) (animationId running)
                                     (last_request running) fs) m Hforeign)
    as (Hg & _ & He).
  cbn [frame_callbacks]. split; [| split; [exact Hcb | split; [exact Hg | exact He]]].
  clear Hcb Hfs Hs Hg He. induction Hforeign as [| c fs Hc _ IH]; [reflexivity |].
  cbn. unfold is_animate at 1. rewrite Hc. exact IH.
Qed.

Lemma animation_cancelled_witness :
  let s0 := mkAnimState (Some (n0, n0)) None 7 [(7%nat, Foreign)] in
  let running := Nat.iter 2 run_frame (animation_effect s0) in
  frame_callbacks (animation_cleanup running) = []
  /\ groupRef (Nat.iter 3 run_frame (animation_cleanup running)) = groupRef running.
Proof.
  cbv zeta.
  destruct (animation_cancelled
              (mkAnimState (Some (n0, n0)) None 7 [(7%nat, Foreign)]) 2 3)
    as (_ & _ & Hg & _).
  - repeat constructor.
  - split; [vm_compute; reflexivity | exact Hg].
Defined.

(** ** The container's listeners *)

Lemma not_registered (type : string) (n : nat) (ls : list (string * Listener)) :
  Forall (fun entry => (listener_closure (snd entry) < n)%nat) ls ->
  existsb (same_listener type (PreventDefault n)) ls = false.
Proof.
  induction 1 as [| entry ls Hlt _ IH]; [reflexivity |].
  cbn [existsb]. rewrite IH, orb_false_r. unfold same_listener.
  cbn [listener_closure].
  destruct (Nat.eqb_spec (listener_closure (snd entry)) n); [lia |].
  apply andb_false_r.
Qed.

Lemma remove_unregistered (type : string) (n : nat) (ls : list (string * Listener)) :
  Forall (fun entry => (listener_closure (snd entry) < n)%nat) ls ->
  removeEventListener type (PreventDefault n) ls = ls.
Proof.
  induction 1 as [| entry ls Hlt _ IH]; [reflexivity |].
  unfold removeEventListener in *. cbn [filter]. rewrite IH.
  unfold same_listener. cbn [listener_closure].
  destruct (Nat.eqb_spec (listener_closure (snd entry)) n); [lia |].
  rewrite andb_false_r. reflexivity.
Qed.

Lemma same_listener_own (type type' : string) (n : nat) :
  same_listener type (PreventDefault n) (type', PreventDefault n) = String.eqb type' type.
Proof.
  unfold same_listener. cbn [fst snd listener_closure].
  rewrite Nat.eqb_refl. apply andb_true_r.
Qed.

Lemma remove_own (type : string) (n : nat) (ls extra : list (string * Listener)) :
  Forall (fun entry => (listener_closure (snd entry) < n)%nat) ls ->
  removeEventListener type (PreventDefault n) (ls ++ extra)
  = ls ++ removeEventListener type (PreventDefault n) extra.
Proof.
  intros Hk. unfold removeEventListener at 1. rewrite filter_app.
  fold (removeEventListener type (PreventDefault n) ls).
  fold (removeEventListener type (PreventDefault n) extra).
  rewrite (remove_unregistered _ _ _ Hk). reflexivity.
Qed.

Lemma listeners_effect_attached (d : Dom) :
  known_closures d -> canvasContainerRef d = true ->
  listeners_effect d
  = (mkDom true
           (listeners d ++ [("contextmenu", PreventDefault (closures d));
                            ("selectstart", PreventDefault (closures d))])
           (S (closures d)),
     Some (PreventDefault (closures d))).
Proof.
  intros Hk Href. unfold listeners_effect. rewrite Href. cbn [negb].
  unfold addEventListener at 2. rewrite (not_registered _ _ _ Hk).
  unfold addEventListener. rewrite existsb_app, (not_registered _ _ _ Hk).
  cbn. rewrite <- app_assoc. reflexivity.
Qed.

(** X17.  Mounting and unmounting HypercubeVisualization leaves the
    container's listeners exactly as they were, whether or not the ref was
    attached: the cleanup removes the two registrations of the effect and
    no listener of anyone else. *)
Theorem listeners_round_trip (d : Dom) :
  known_closures d ->
  listeners (listeners_cleanup (snd (listeners_effect d)) (fst (listeners_effect d)))
  = listeners d
  /\ (canvasContainerRef d = false -> listeners_effect d = (d, None)).
Proof.
  intros Hk. split.
  - destruct (canvasContainerRef d) eqn:Href.
    + rewrite (listeners_effect_attached d Hk Href).
      cbn [fst snd listeners_cleanup listeners].
      rewrite (remove_own _ _ _ _ Hk).
      unfold removeEventListener at 2. cbn [filter]. rewrite !same_listener_own.
      cbn [String.eqb Ascii.eqb Bool.eqb negb andb].
      rewrite (remove_own _ _ _ _ Hk).
      unfold removeEventListener. cbn [filter]. rewrite !same_listener_own.
      cbn [String.eqb Ascii.eqb Bool.eqb negb andb]. apply app_nil_r.
    + unfold listeners_effect. rewrite Href. reflexivity.
  - intros Href. unfold listeners_effect. rewrite Href. reflexivity.
Qed.

Lemma listeners_round_trip_witness :
  let d := mkDom true [("click", OtherListener 0 false)] 1 in
  listeners (fst (listeners_effect d))
  = [("click", OtherListener 0 false);
     ("contextmenu", PreventDefault 1);
     ("selectstart", PreventDefault 1)]
  /\ listeners (listeners_cleanup (snd (listeners_effect d)) (fst (listeners_effect d)))
     = [("click", OtherListener 0 false)].
Proof.
  cbv zeta. split; [reflexivity |].
  apply (listeners_round_trip (mkDom true [("click", OtherListener 0 false)] 1)).
  repeat constructor.
Defined.

(** X18.  With the ref attached, the mounted widget cancels every
    context-menu and select-start event on the container and changes the
    fate of no other event; after the cleanup every event fares as before
    the mount. *)
Theorem listeners_cancel_gestures (d : Dom) (type : string) :
  known_closures d ->
  canvasContainerRef d = true ->
  let mounted := fst (listeners_effect d) in
  default_prevented "contextmenu" mounted = true
  /\ default_prevented "selectstart" mounted = true
  /\ (type <> "contextmenu" -> type <> "selectstart" ->
      default_prevented type mounted = default_prevented type d)
  /\ default_prevented type (listeners_cleanup (snd (listeners_effect d)) mounted)
     = default_prevented type d.
Proof.
  intros Hk Href. cbv zeta.
  pose proof (proj1 (listeners_round_trip d Hk)) as Hrt.
  unfold default_prevented at 5. rewrite Hrt.
  rewrite (listeners_effect_attached d Hk Href). cbn [fst].
  unfold default_prevented. cbn [listeners]. rewrite !existsb_app.
  cbn [existsb fst snd prevents_default].
  split; [| split; [| split]].
  - change (String.eqb "contextmenu" "contextmenu") with true.
    cbn. apply orb_true_r.
  - change (String.eqb "selectstart" "selectstart") with true.
    change (String.eqb "contextmenu" "selectstart") with false.
    cbn. apply orb_true_r.
  - intros H1 H2.
    destruct (String.eqb_spec "contextmenu" type) as [E | _]; [congruence |].
    destruct (String.eqb_spec "selectstart" type) as [E | _]; [congruence |].
    cbn. apply orb_false_r.
  - reflexivity.
Qed.

Lemma listeners_cancel_gestures_witness :
  let d := mkDom true [("click", OtherListener 0 false)] 1 in
  default_prevented "contextmenu" (fst (listeners_effect d)) = true
  /\ default_prevented "click" (fst (listeners_effect d)) = false.
Proof.
  cbv zeta.
  destruct (listeners_cancel_gestures
              (mkDom true [("click", OtherListener 0 false)] 1) "click")
    as (Hc & _ & Hother & _).
  - repeat constructor.
  - reflexivity.
  - split; [exact Hc |]. rewrite Hother; [reflexivity | discriminate | discriminate].
Defined.

